(** * Order-book and trade handlers of the dYdX and Upbit adapters

    A shallow embedding of [cryptofeed/exchanges/dydx.py] and
    [cryptofeed/exchanges/upbit.py].  Handlers mutate the adapter object,
    may raise, and call back into the event sink; they are written in a
    small state / exception / output monad [Py].

    Conventions
    - [Decimal] values are the finite decimals the exchanges send.  Python
      compares and hashes them by numeric value, so they are represented
      by canonical rationals ([Qc]); the conversions [Decimal(..)] and
      [int(..)] of wire fields are taken as already done.
    - Python floats are IEEE binary64, i.e. Rocq's primitive [float].
    - [OrderBook] (package [order_book]) is used as a pair of price -> size
      dictionaries; no depth cap is applied by the model.
    - Wire messages are typed records; a message whose contents do not
      have the shape its handler reads makes the handler raise, as the
      dictionary accesses of the source do. *)

From Stdlib Require Import ZArith QArith Qcanon Floats.
From stdpp Require Import gmap strings list pretty.

Local Open Scope Z_scope.

(** ** The effect monad *)

Inductive Exn := KeyError | TypeError | OverflowError.

(** A computation runs on the adapter state [S]; it ends normally with a
    value or with an exception, in both cases leaving the (possibly
    mutated) state and the sequence of effects [E] it performed. *)
Definition Py (S E A : Type) : Type := S → (Exn + A) * S * list E.

Definition ret {S E A} (a : A) : Py S E A := λ s, (inr a, s, []).

Definition bind {S E A B} (m : Py S E A) (k : A → Py S E B) : Py S E B :=
  λ s, match m s with
       | (inl e, s1, out1) => (inl e, s1, out1)
       | (inr a, s1, out1) =>
           match k a s1 with (r, s2, out2) => (r, s2, out1 ++ out2) end
       end.

Definition raise {S E A} (e : Exn) : Py S E A := λ s, (inl e, s, []).
Definition get {S E} : Py S E S := λ s, (inr s, s, []).
Definition modify {S E} (f : S → S) : Py S E unit := λ s, (inr tt, f s, []).
Definition emit {S E} (e : E) : Py S E unit := λ s, (inr tt, s, [e]).

Declare Scope py_scope.
Delimit Scope py_scope with py.
Notation "x <- m ;; k" := (bind m (λ x, k))
  (at level 100, m at next level, right associativity) : py_scope.
Notation "m ;;; k" := (bind m (λ _, k))
  (at level 100, right associativity) : py_scope.
Local Open Scope py_scope.

Ltac py_unfold :=
  unfold bind, get, ret, modify, raise, emit; simpl.

(** [for x in l: body x] *)
Fixpoint for_ {S E A} (l : list A) (body : A → Py S E unit) : Py S E unit :=
  match l with
  | [] => ret tt
  | x :: l' => body x ;;; for_ l' body
  end.

(** A [for] loop whose body updates local variables [B]. *)
Fixpoint for_acc {S E A B} (l : list A) (body : B → A → Py S E B) (b : B)
  : Py S E B :=
  match l with
  | [] => ret b
  | x :: l' => b' <- body b x ;; for_acc l' body b'
  end.

(** Every run of [m] ends in a state related by [R] to the one it started
    from, whether it returns or raises. *)
Definition preserves {S E A} (R : relation S) (m : Py S E A) : Prop :=
  ∀ s, R s (m s).1.2.

Definition outcome {S E A} (r : (Exn + A) * S * list E) : Exn + A := r.1.1.
Definition final {S E A} (r : (Exn + A) * S * list E) : S := r.1.2.
Definition effects {S E A} (r : (Exn + A) * S * list E) : list E := r.2.

(** ** Canonical data model ([cryptofeed.defines], [cryptofeed.types]) *)

(** Modelled from the spec: the side constants [BID], [ASK] and [BUY],
    [SELL] of [cryptofeed.defines], which is not among the sources; they
    are the two keys of a book or delta and the two sides of a trade. *)
Inductive Side := BID | ASK.
Inductive TradeSide := BUY | SELL.

Global Instance Side_eq_dec : EqDecision Side.
Proof. solve_decision. Defined.

(** Modelled from the spec: the canonical channel names [L2_BOOK] and
    [TRADES] of [cryptofeed.defines], two distinct strings for the book
    and the trades channel. *)
Definition L2_BOOK : string := "l2_book".
Definition TRADES : string := "trades".

Abbreviation Decimal := Qc.
Abbreviation Levels := (gmap Qc Qc).

(** Modelled from the spec: [OrderBook] of [cryptofeed.types], per
    exchange and symbol two mappings price -> size, [bids] and [asks]
    (in Python [ob.book.bids], [ob.book[side]]). *)
Record OrderBook := mkOrderBook {
  ob_exchange : string;
  ob_symbol : string;
  ob_max_depth : Z;
  bids : Levels;
  asks : Levels
}.

(** [OrderBook(exchange, symbol, max_depth=..)]: a new, empty book. *)
Definition OrderBook_new (exchange symbol : string) (max_depth : Z) : OrderBook :=
  mkOrderBook exchange symbol max_depth ∅ ∅.

(** [ob.book[side]] and assignment to it. *)
Definition book_side (side : Side) (ob : OrderBook) : Levels :=
  match side with BID => bids ob | ASK => asks ob end.

Definition set_book_side (side : Side) (lv : Levels) (ob : OrderBook) : OrderBook :=
  match side with
  | BID => mkOrderBook (ob_exchange ob) (ob_symbol ob) (ob_max_depth ob) lv (asks ob)
  | ASK => mkOrderBook (ob_exchange ob) (ob_symbol ob) (ob_max_depth ob) (bids ob) lv
  end.

(** No price level of the book has size 0. *)
Definition no_zero_level (B : OrderBook) : Prop :=
  ∀ sd p, book_side sd B !! p ≠ Some 0%Qc.

(** The [delta] dictionary [{BID: [...], ASK: [...]}]. *)
Record Delta := mkDelta {
  delta_bid : list (Decimal * Decimal);
  delta_ask : list (Decimal * Decimal)
}.

Definition delta_side (side : Side) (d : Delta) : list (Decimal * Decimal) :=
  match side with BID => delta_bid d | ASK => delta_ask d end.

(** [delta[side].append(x)] *)
Definition delta_append (side : Side) (x : Decimal * Decimal) (d : Delta) : Delta :=
  match side with
  | BID => mkDelta (delta_bid d ++ [x]) (delta_ask d)
  | ASK => mkDelta (delta_bid d) (delta_ask d ++ [x])
  end.

(** Modelled from the spec: [Trade] of [cryptofeed.types], built by
    [Trade(exchange, symbol, side, amount, price, timestamp, id=None,
    raw=None)]: exchange id, symbol, side, amount, price, timestamp in
    epoch seconds, optional trade id and the wire payload. *)
Record Trade (R : Type) := mkTrade {
  t_exchange : string;
  t_symbol : string;
  t_side : TradeSide;
  t_amount : Decimal;
  t_price : Decimal;
  t_timestamp : float;
  t_id : option string;
  t_raw : R
}.
Arguments mkTrade {R}.
Arguments t_exchange {R}.
Arguments t_symbol {R}.
Arguments t_side {R}.
Arguments t_amount {R}.
Arguments t_price {R}.
Arguments t_timestamp {R}.
Arguments t_id {R}.
Arguments t_raw {R}.

(** Values handed to [json.dumps] before [conn.write]. *)
#[local] Unset Elimination Schemes.
Inductive json :=
  | JStr (s : string)
  | JBool (b : bool)
  | JList (l : list json)
  | JObj (fields : list (string * json)).
#[local] Set Elimination Schemes.

(** Modelled from the spec: the event sink, i.e. the methods
    [book_callback] and [callback] of [cryptofeed.feed.Feed], with
    [conn.write] and [LOG.warning] the only other things a handler does
    to the outside.  [BookCallback] is [book_callback(book_type, book,
    receipt_timestamp, timestamp=None, raw=None, delta=None)]: the book
    is the adapter's book as it is at the call, an exchange timestamp or
    a delta that the caller does not pass is [None]. *)
Inductive Effect (R TR : Type) :=
  | BookCallback (book_type : string) (book : OrderBook) (receipt : float)
      (timestamp : option float) (delta : option Delta) (raw : R)
  | Callback (channel : string) (t : Trade TR) (receipt : float)
  | ConnWrite (payload : json)
  | LogWarning (raw : R).
Arguments BookCallback {R TR}.
Arguments Callback {R TR}.
Arguments ConnWrite {R TR}.
Arguments LogWarning {R TR}.

(** The part of the base class [cryptofeed.feed.Feed] the adapters
    use, taken as parameters: configuration and the symbol / channel
    translations built at start-up. *)
Class Feed := {
  max_depth : Z;
  subscription : list (string * list string);
  exchange_symbol_to_std_symbol : string → string;
  exchange_channel_to_std : string → string;
  (* the inherited [Feed.timestamp_normalize] *)
  feed_timestamp_normalize : string → float
}.

(** ** dYdX: offset-tagged incremental order book *)

Module dYdX.

(** Wire messages of the [v3_orderbook] and [v3_trades] channels. *)
Record SnapshotEntry := mkEntry {
  e_price : Decimal;     (* Decimal(entry['price']) *)
  e_size : Decimal;      (* Decimal(entry['size']) *)
  e_offset : Z           (* int(entry['offset']) *)
}.

Record TradeRecord := mkTradeRecord {
  tr_side : string;
  tr_size : Decimal;
  tr_price : Decimal;
  tr_createdAt : string
}.

(** [msg['contents']]: an order-book update carries one [offset] and the
    changed levels as [[price, size]] pairs; an order-book snapshot maps
    each side name to its entries; a trade message lists trades. *)
Inductive Contents :=
  | Update (offset : Z) (bids asks : list (Decimal * Decimal))
  | Snapshot (sides : list (string * list SnapshotEntry))
  | TradeList (trades : list TradeRecord).

Record Msg := mkMsg {
  msg_type : string;
  msg_channel : string;
  msg_id : string;
  msg_contents : Contents
}.

Record State := mkState {
  _l2_book : gmap string OrderBook;
  _offsets : gmap string (gmap Qc Z)
}.

Abbreviation Eff := (Effect Msg TradeRecord).
Abbreviation M := (Py State Eff).

(** Modelled from the spec: [id = DYDX], the exchange id constant of
    [cryptofeed.defines]. *)
Definition id : string := "DYDX".

Definition websocket_channels : list (string * string) :=
  [(L2_BOOK, "v3_orderbook"); (TRADES, "v3_trades")].

(** [self._offsets[pair]] and [self._l2_book[pair]] as expressions. *)
Definition offsets_at (pair : string) : M (gmap Qc Z) :=
  s <- get ;;
  match _offsets s !! pair with
  | Some ledger => ret ledger
  | None => raise KeyError
  end.

Definition book_at (pair : string) : M OrderBook :=
  s <- get ;;
  match _l2_book s !! pair with
  | Some ob => ret ob
  | None => raise KeyError
  end.

(** [self._offsets[pair] = v] and [self._l2_book[pair] = v]. *)
Definition set_offsets (pair : string) (v : gmap Qc Z) : M unit :=
  modify (λ s, mkState (_l2_book s) (<[pair := v]> (_offsets s))).

Definition set_book (pair : string) (v : OrderBook) : M unit :=
  modify (λ s, mkState (<[pair := v]> (_l2_book s)) (_offsets s)).

(** [self._offsets[pair][price] = offset]: the inner dictionary is
    mutated in place. *)
Definition store_offset (pair : string) (price : Decimal) (offset : Z) : M unit :=
  ledger <- offsets_at pair ;;
  set_offsets pair (<[price := offset]> ledger).

(** [self._l2_book[pair].book[side][price] = amount] *)
Definition store_level (pair : string) (side : Side) (price amount : Decimal) : M unit :=
  ob <- book_at pair ;;
  set_book pair (set_book_side side (<[price := amount]> (book_side side ob)) ob).

(** [del self._l2_book[pair].book[side][price]] *)
Definition del_level (pair : string) (side : Side) (price : Decimal) : M unit :=
  ob <- book_at pair ;;
  match book_side side ob !! price with
  | Some _ => set_book pair (set_book_side side (delete price (book_side side ob)) ob)
  | None => raise KeyError
  end.

(** The test of line 66:
    [price in self._offsets[pair] and offset < self._offsets[pair][price]]. *)
Definition stale (ledger : gmap Qc Z) (price : Decimal) (offset : Z) : bool :=
  match ledger !! price with
  | Some recorded => bool_decide (offset < recorded)
  | None => false
  end.

(** [def __reset(self)] *)
Definition __reset : M unit :=
  modify (λ _, mkState ∅ ∅).

Section handlers.
Context {feed : Feed}.

(** Body of the inner loop of the [channel_data] branch of [_book]; the
    locals it updates are [(updated, delta)]. *)
Definition book_level (pair : string) (offset : Z) (side : Side)
    (loc : bool * Delta) (data : Decimal * Decimal) : M (bool * Delta) :=
  let price := data.1 in
  let amount := data.2 in
  ledger <- offsets_at pair ;;
  if stale ledger price offset then ret loc
  else
    store_offset pair price offset ;;;
    let loc' := (true, delta_append side (price, amount) loc.2) in
    (if decide (amount = 0%Qc) then
       ob <- book_at pair ;;
       if decide (is_Some (book_side side ob !! price))
       then del_level pair side price
       else ret tt
     else store_level pair side price amount) ;;;
    ret loc'.

(** Body of the inner loop of the snapshot branch. *)
Definition snapshot_entry (pair : string) (side : Side) (entry : SnapshotEntry) : M unit :=
  store_offset pair (e_price entry) (e_offset entry) ;;;
  if decide (0 < e_size entry)%Qc
  then store_level pair side (e_price entry) (e_size entry)
  else ret tt.

Definition snapshot_side (pair : string) (kv : string * list SnapshotEntry) : M unit :=
  let side := if decide (kv.1 = "bids") then BID else ASK in
  for_ kv.2 (snapshot_entry pair side).

(** [async def _book(self, msg, timestamp)] *)
Definition _book (msg : Msg) (timestamp : float) : M unit :=
  let pair := exchange_symbol_to_std_symbol (msg_id msg) in
  let delta := mkDelta [] [] in
  if decide (msg_type msg = "channel_data") then
    match msg_contents msg with
    | Update offset bids asks =>
        loc <- for_acc bids (book_level pair offset BID) (false, delta) ;;
        loc <- for_acc asks (book_level pair offset ASK) loc ;;
        if loc.1 then
          ob <- book_at pair ;;
          emit (BookCallback L2_BOOK ob timestamp None (Some loc.2) msg)
        else ret tt
    | _ => raise KeyError       (* no 'offset' (or 'bids') in contents *)
    end
  else
    set_book pair (OrderBook_new id pair max_depth) ;;;
    set_offsets pair ∅ ;;;
    match msg_contents msg with
    | Snapshot sides => for_ sides (snapshot_side pair)
    | TradeList [] => ret tt
    | TradeList (_ :: _) => raise KeyError   (* entry['offset'] *)
    | Update _ _ _ => raise TypeError        (* entry['price'] on a str or list *)
    end ;;;
    ob <- book_at pair ;;
    emit (BookCallback L2_BOOK ob timestamp None None msg).

(** [async def _trade(self, msg, timestamp)] *)
Definition make_trade (pair : string) (trade : TradeRecord) : Trade TradeRecord :=
  mkTrade id pair
    (if decide (tr_side trade = "BUY") then BUY else SELL)
    (tr_size trade)
    (tr_price trade)
    (feed_timestamp_normalize (tr_createdAt trade))
    None
    trade.

Definition _trade (msg : Msg) (timestamp : float) : M unit :=
  let pair := exchange_symbol_to_std_symbol (msg_id msg) in
  match msg_contents msg with
  | TradeList trades =>
      for_ trades (λ trade, emit (Callback TRADES (make_trade pair trade) timestamp))
  | _ => raise KeyError         (* no 'trades' in contents *)
  end.

(** [async def message_handler(self, msg, conn, timestamp)], after
    [json.loads]. *)
Definition message_handler (msg : Msg) (timestamp : float) : M unit :=
  if decide (msg_type msg = "channel_data" ∨ msg_type msg = "subscribed") then
    let chan := exchange_channel_to_std (msg_channel msg) in
    if decide (chan = L2_BOOK) then _book msg timestamp
    else if decide (chan = TRADES) then _trade msg timestamp
    else emit (LogWarning msg)
  else if decide (msg_type msg = "connected") then ret tt
  else emit (LogWarning msg).

(** [async def subscribe(self, conn)] *)
Definition subscribe_msg (chan symbol : string) : json :=
  let msg := [("type", JStr "subscribe"); ("channel", JStr chan); ("id", JStr symbol)] in
  JObj (if decide (exchange_channel_to_std chan = L2_BOOK)
        then msg ++ [("includeOffsets", JBool true)]
        else msg).

Definition subscribe : M unit :=
  __reset ;;;
  for_ subscription (λ cs,
    for_ cs.2 (λ symbol, emit (ConnWrite (subscribe_msg cs.1 symbol)))).

End handlers.

(** *** Functional description of a handled message

    The statements below describe the result of a handler run by these
    pure functions. *)

(** The levels of an update that pass the test of line 66 against the
    ledger [L]. *)
Definition applied (L : gmap Qc Z) (offset : Z) (l : list (Decimal * Decimal))
  : list (Decimal * Decimal) :=
  filter (λ d, stale L d.1 offset = false) l.

(** Lines 73-77 on one book. *)
Definition level_book (side : Side) (ob : OrderBook) (data : Decimal * Decimal) : OrderBook :=
  if decide (data.2 = 0%Qc)
  then set_book_side side (delete data.1 (book_side side ob)) ob
  else set_book_side side (<[data.1 := data.2]> (book_side side ob)) ob.

Definition record_offset (offset : Z) (L : gmap Qc Z) (data : Decimal * Decimal) : gmap Qc Z :=
  <[data.1 := offset]> L.

(** Book and ledger after an update with levels [bids], [asks]. *)
Definition updated_book (L : gmap Qc Z) (offset : Z) (bids asks : list (Decimal * Decimal))
    (B : OrderBook) : OrderBook :=
  foldl (level_book ASK) (foldl (level_book BID) B (applied L offset bids))
        (applied L offset asks).

Definition updated_ledger (L : gmap Qc Z) (offset : Z) (bids asks : list (Decimal * Decimal))
  : gmap Qc Z :=
  foldl (record_offset offset) L (applied L offset bids ++ applied L offset asks).

(** The entries of a snapshot in the order the loops visit them, each
    with the side its key selects. *)
Definition side_of_key (key : string) : Side :=
  if decide (key = "bids") then BID else ASK.

Definition snapshot_entries (sides : list (string * list SnapshotEntry))
  : list (Side * SnapshotEntry) :=
  sides ≫= (λ kv, (λ e, (side_of_key kv.1, e)) <$> kv.2).

Definition snapshot_prices (l : list (Side * SnapshotEntry)) : list Decimal :=
  (λ se, e_price se.2) <$> l.

Definition seed_entry (L : gmap Qc Z) (se : Side * SnapshotEntry) : gmap Qc Z :=
  <[e_price se.2 := e_offset se.2]> L.

Definition install_entry (ob : OrderBook) (se : Side * SnapshotEntry) : OrderBook :=
  if decide (0 < e_size se.2)%Qc
  then set_book_side se.1 (<[e_price se.2 := e_size se.2]> (book_side se.1 ob)) ob
  else ob.

(** [delta] after appending the levels [l] to its [side]. *)
Definition extend_delta (side : Side) (d : Delta) (l : list (Decimal * Decimal)) : Delta :=
  foldl (λ d x, delta_append side x d) d l.

(** The events of an update: one callback carrying the applied levels,
    or none if none was applied. *)
Definition update_events (msg : Msg) (ts : float) (B' : OrderBook)
    (ab aa : list (Decimal * Decimal)) : list Eff :=
  if bool_decide (ab ++ aa ≠ [])
  then [BookCallback L2_BOOK B' ts None (Some (mkDelta ab aa)) msg]
  else [].

Section snapshot_view.
Context {feed : Feed}.

(** The messages [message_handler] passes to the snapshot branch of
    [_book]. *)
Definition is_book_snapshot (msg : Msg) : Prop :=
  msg_type msg = "subscribed" ∧ exchange_channel_to_std (msg_channel msg) = L2_BOOK.

(** One handled message that is not an order-book snapshot. *)
Definition update_step (s s' : State) : Prop :=
  ∃ msg ts, ¬ is_book_snapshot msg ∧ s' = final (message_handler msg ts s).

(** Book and ledger a snapshot with these sides installs. *)
Definition snapshot_book (pair : string) (sides : list (string * list SnapshotEntry))
  : OrderBook :=
  foldl install_entry (OrderBook_new id pair max_depth) (snapshot_entries sides).

Definition snapshot_ledger (sides : list (string * list SnapshotEntry)) : gmap Qc Z :=
  foldl seed_entry ∅ (snapshot_entries sides).

End snapshot_view.

Definition put_pair (pair : string) (B : OrderBook) (L : gmap Qc Z) (s : State) : State :=
  mkState (<[pair := B]> (_l2_book s)) (<[pair := L]> (_offsets s)).

(** The condition under which the spec applies a delta: no ledger entry
    for the price, or a token not below the recorded one. *)
Definition accepts (L : gmap Qc Z) (price : Decimal) (offset : Z) : Prop :=
  L !! price = None ∨ ∃ recorded, L !! price = Some recorded ∧ recorded ≤ offset.

(** A book callback among [effs] carries a delta that mentions [price]. *)
Definition delta_mentions (effs : list Eff) (price : Decimal) : Prop :=
  ∃ book_type book receipt timestamp delta raw amount,
    BookCallback book_type book receipt timestamp (Some delta) raw ∈ effs ∧
    ((price, amount) ∈ delta_bid delta ∨ (price, amount) ∈ delta_ask delta).

(** The ledger token of [price] for [pair], if any. *)
Definition token (s : State) (pair : string) (price : Decimal) : option Z :=
  _offsets s !! pair ≫= (.!! price).

(** Tokens only grow from [s] to [s']. *)
Definition ledger_le (s s' : State) : Prop :=
  ∀ pair price t, token s pair price = Some t →
    ∃ t', token s' pair price = Some t' ∧ t ≤ t'.

End dYdX.

(** ** Upbit: full-replace periodic order book *)

Module Upbit.

(** One element of [msg['obu']]: keys ['ap'], ['as'], ['bp'], ['bs']. *)
Record OrderbookUnit := mkUnit {
  u_ap : Decimal;
  u_as : Decimal;
  u_bp : Decimal;
  u_bs : Decimal
}.

(** The keys a handler reads besides ['ty'], ['cd'] and ['tms'], which
    both kinds of message carry. *)
Inductive Payload :=
  | TradePayload (tp tv : Decimal) (ttms : Z) (ab : string) (sid : Z)
  | OrderbookPayload (obu : list OrderbookUnit).

Record Msg := mkMsg {
  msg_ty : string;
  msg_cd : string;
  msg_tms : Z;
  msg_payload : Payload
}.

Record State := mkState {
  _l2_book : gmap string OrderBook
}.

Abbreviation Eff := (Effect Msg Msg).
Abbreviation M := (Py State Eff).

(** Modelled from the spec: [id = UPBIT], the exchange id constant of
    [cryptofeed.defines]. *)
Definition id : string := "UPBIT".

Definition websocket_channels : list (string * string) :=
  [(L2_BOOK, L2_BOOK); (TRADES, TRADES)].

(** Conversion of a Python [int] to a float, as [int / float] does it:
    round to nearest even, [OverflowError] beyond the largest double. *)
Definition to_float (z : Z) : option float :=
  let f := SF2Prim (binary_normalize prec emax z 0 false) in
  if PrimFloat.is_infinity f then None else Some f.

Definition float_of_int (z : Z) : M float :=
  match to_float z with
  | Some f => ret f
  | None => raise OverflowError
  end.

(** [def timestamp_normalize(cls, ts): return ts / 1000.0] *)
Definition timestamp_normalize (ts : Z) : M float :=
  f <- float_of_int ts ;;
  ret (PrimFloat.div f 1000%float).

(** A dictionary comprehension [{k: v for ...}]: later pairs overwrite
    earlier ones. *)
Definition dict_of (l : list (Decimal * Decimal)) : Levels :=
  foldl (λ m kv, <[kv.1 := kv.2]> m) ∅ l.

Definition bids_of (obu : list OrderbookUnit) : Levels :=
  dict_of ((λ unit, (u_bp unit, u_bs unit)) <$>
           filter (λ unit, (0 < u_bp unit)%Qc) obu).

Definition asks_of (obu : list OrderbookUnit) : Levels :=
  dict_of ((λ unit, (u_ap unit, u_as unit)) <$>
           filter (λ unit, (0 < u_ap unit)%Qc) obu).

Definition book_at (pair : string) : M OrderBook :=
  s <- get ;;
  match _l2_book s !! pair with
  | Some ob => ret ob
  | None => raise KeyError
  end.

Definition set_book (pair : string) (v : OrderBook) : M unit :=
  modify (λ s, mkState (<[pair := v]> (_l2_book s))).

Section handlers.
Context {feed : Feed}.

(** [async def _trade(self, msg, timestamp)] *)
Definition _trade (msg : Msg) (timestamp : float) : M unit :=
  match msg_payload msg with
  | TradePayload tp tv ttms ab sid =>
      let price := tp in
      let amount := tv in
      ts <- timestamp_normalize ttms ;;
      let t := mkTrade id
                 (exchange_symbol_to_std_symbol (msg_cd msg))
                 (if decide (ab = "BID") then BUY else SELL)
                 amount
                 price
                 ts
                 (Some (pretty sid))
                 msg in
      emit (Callback TRADES t timestamp)
  | _ => raise KeyError         (* no 'tp' in msg *)
  end.

(** [async def _book(self, msg, timestamp)] *)
Definition _book (msg : Msg) (timestamp : float) : M unit :=
  let pair := exchange_symbol_to_std_symbol (msg_cd msg) in
  orderbook_timestamp <- timestamp_normalize (msg_tms msg) ;;
  s <- get ;;
  (if decide (is_Some (_l2_book s !! pair)) then ret tt
   else set_book pair (OrderBook_new id pair max_depth)) ;;;
  match msg_payload msg with
  | OrderbookPayload obu =>
      ob <- book_at pair ;;
      set_book pair (set_book_side BID (bids_of obu) ob) ;;;
      ob <- book_at pair ;;
      set_book pair (set_book_side ASK (asks_of obu) ob) ;;;
      ob <- book_at pair ;;
      emit (BookCallback L2_BOOK ob timestamp (Some orderbook_timestamp) None msg)
  | _ => raise KeyError         (* no 'obu' in msg *)
  end.

(** [async def message_handler(self, msg, conn, timestamp)], after
    [json.loads]. *)
Definition message_handler (msg : Msg) (timestamp : float) : M unit :=
  if decide (msg_ty msg = "trade") then _trade msg timestamp
  else if decide (msg_ty msg = "orderbook") then _book msg timestamp
  else emit (LogWarning msg).

(** [async def subscribe(self, conn)]; [ticket] is the value drawn by
    [uuid.uuid4()]. *)
Definition subscribe_chan (chans : list json) (cs : string * list string) : list json :=
  let chan := cs.1 in
  let codes := JList (JStr <$> cs.2) in
  let chans :=
    if decide (chan = L2_BOOK)
    then chans ++ [JObj [("type", JStr "orderbook"); ("codes", codes);
                         ("isOnlyRealtime", JBool true)]]
    else chans in
  if decide (chan = TRADES)
  then chans ++ [JObj [("type", JStr "trade"); ("codes", codes);
                       ("isOnlyRealtime", JBool true)]]
  else chans.

Definition subscribe (ticket : string) : M unit :=
  let chans := [JObj [("ticket", JStr ticket)]; JObj [("format", JStr "SIMPLE")]] in
  let chans := foldl subscribe_chan chans subscription in
  emit (ConnWrite (JList chans)).

End handlers.

(** *** Functional description of a handled order-book message *)

Section orderbook_view.
Context {feed : Feed}.

(** The book object the message's levels are assigned to: the one the
    adapter has for the symbol, or a new one. *)
Definition book_object (s : State) (pair : string) : OrderBook :=
  default (OrderBook_new id pair max_depth) (_l2_book s !! pair).

Definition replaced_book (s : State) (pair : string) (obu : list OrderbookUnit) : OrderBook :=
  let ob := book_object s pair in
  mkOrderBook (ob_exchange ob) (ob_symbol ob) (ob_max_depth ob) (bids_of obu) (asks_of obu).

End orderbook_view.

End Upbit.

(** ** Concrete feeds and messages *)

Module Demo.

(** [Decimal(n)] for an integer [n]. *)
Definition dec (n : Z) : Decimal := Q2Qc (inject_Z n).

(** Reverse lookup in a [websocket_channels] table. *)
Definition channel_to_std (table : list (string * string)) (chan : string) : string :=
  match filter (λ kv, kv.2 = chan) table with
  | kv :: _ => kv.1
  | [] => chan
  end.

Definition dydx_feed : Feed := {|
  max_depth := 0;
  subscription := [("v3_orderbook", ["BTC-USD"]); ("v3_trades", ["BTC-USD"])];
  exchange_symbol_to_std_symbol := λ sym, sym;
  exchange_channel_to_std := channel_to_std dYdX.websocket_channels;
  feed_timestamp_normalize := λ _, 0%float
|}.

Definition upbit_feed : Feed := {|
  max_depth := 0;
  subscription := [(L2_BOOK, ["KRW-BTC"]); (TRADES, ["KRW-BTC"])];
  exchange_symbol_to_std_symbol := λ sym, sym;
  exchange_channel_to_std := channel_to_std Upbit.websocket_channels;
  feed_timestamp_normalize := λ _, 0%float
|}.

Definition dydx_book (c : dYdX.Contents) (type : string) : dYdX.Msg :=
  dYdX.mkMsg type "v3_orderbook" "BTC-USD" c.

(** A snapshot with bid 100 -> 2 and ask 101 -> 3, both at token 5, and
    the state it leaves when handled after a subscribe. *)
Definition snapshot_A : dYdX.Msg :=
  dydx_book (dYdX.Snapshot [("bids", [dYdX.mkEntry (dec 100) (dec 2) 5]);
                            ("asks", [dYdX.mkEntry (dec 101) (dec 3) 5])])
            "subscribed".

Definition ledger_A : gmap Qc Z := <[dec 101 := 5]> (<[dec 100 := 5]> ∅).

Definition book_A : OrderBook :=
  mkOrderBook "DYDX" "BTC-USD" 0 (<[dec 100 := dec 2]> ∅) (<[dec 101 := dec 3]> ∅).

Definition state_A : dYdX.State :=
  dYdX.mkState (<["BTC-USD" := book_A]> ∅) (<["BTC-USD" := ledger_A]> ∅).

(** Updates of bid 100 -> 1 at a stale and at a fresh token. *)
Definition update_stale : dYdX.Msg :=
  dydx_book (dYdX.Update 4 [(dec 100, dec 1)] []) "channel_data".

Definition update_fresh : dYdX.Msg :=
  dydx_book (dYdX.Update 6 [(dec 100, dec 1)] []) "channel_data".


(** A zero-size update for a price that is not in the book. *)
Definition update_zero : dYdX.Msg :=
  dydx_book (dYdX.Update 6 [(dec 99, dec 0)] []) "channel_data".

(** An update that carries no level. *)
Definition update_empty : dYdX.Msg :=
  dydx_book (dYdX.Update 6 [] []) "channel_data".

Definition state_empty : dYdX.State := dYdX.mkState ∅ ∅.

(** A snapshot whose bid at 99 has size 0. *)
Definition snapshot_zero : dYdX.Msg :=
  dydx_book (dYdX.Snapshot [("bids", [dYdX.mkEntry (dec 100) (dec 2) 5;
                                      dYdX.mkEntry (dec 99) (dec 0) 7]);
                            ("asks", [dYdX.mkEntry (dec 101) (dec 3) 5])])
            "subscribed".


(** Upbit: an order book of one unit whose bid has size 0, and a state
    that holds a book. *)
Definition upbit_orderbook : Upbit.Msg :=
  Upbit.mkMsg "orderbook" "KRW-BTC" 1584263923870
    (Upbit.OrderbookPayload [Upbit.mkUnit (dec 6727000) (dec 1) (dec 6721000) (dec 0)]).

Definition upbit_trade : Upbit.Msg :=
  Upbit.mkMsg "trade" "KRW-BTC" 1584257228806
    (Upbit.TradePayload (dec 6759000) (dec 3) 1584257228000 "BID" 1584257228000000).

(** Two units, the second with ask price 0. *)
Definition upbit_scenario : Upbit.Msg :=
  Upbit.mkMsg "orderbook" "KRW-BTC" 1584263923870
    (Upbit.OrderbookPayload
       [Upbit.mkUnit (dec 6727000) (dec 1) (dec 6721000) (dec 2);
        Upbit.mkUnit (dec 0) (dec 5) (dec 6719000) (dec 3)]).

Definition upbit_state : Upbit.State :=
  Upbit.mkState (<["KRW-BTC" := mkOrderBook "UPBIT" "KRW-BTC" 0
                                  (<[dec 6721000 := dec 2]> ∅) ∅]> ∅).

Definition dydx_trades : dYdX.Msg :=
  dYdX.mkMsg "subscribed" "v3_trades" "UNI-USD"
    (dYdX.TradeList [dYdX.mkTradeRecord "BUY" (dec 384) (dec 17) "2021-06-23T20:28:25.465Z";
                     dYdX.mkTradeRecord "SELL" (dec 384) (dec 18) "2021-06-23T20:22:26.466Z"]).

End Demo.

(** ** dYdX: whole runs of the adapter *)

Module dYdXRuns.
Import dYdX.

(** What a level leaves at its price: nothing for size 0, else its size. *)
Definition level_value (d : Decimal * Decimal) : option Decimal :=
  if decide (d.2 = 0%Qc) then None else Some d.2.

(** What the levels [l], applied in order to one side, leave at price
    [p] when the side held [o] there. *)
Definition final_level (l : list (Decimal * Decimal)) (p : Decimal)
    (o : option Decimal) : option Decimal :=
  foldl (λ o d, if decide (d.1 = p) then level_value d else o) o l.

(** The entries of [pair'] are the same in [s] and [s']. *)
Definition same_at (pair' : string) (s s' : State) : Prop :=
  _l2_book s' !! pair' = _l2_book s !! pair' ∧
  _offsets s' !! pair' = _offsets s !! pair'.

(** A symbol has a book exactly when it has a ledger; every price of the
    book has a token; no level has size 0. *)
Definition consistent (s : State) : Prop :=
  ∀ pair,
    (_l2_book s !! pair = None ∧ _offsets s !! pair = None) ∨
    ∃ B L, _l2_book s !! pair = Some B ∧ _offsets s !! pair = Some L ∧
           (∀ sd p, is_Some (book_side sd B !! p) → is_Some (L !! p)) ∧
           no_zero_level B.

Section runs.
Context {feed : Feed}.

(** One handled message of any kind, returning or raising. *)
Definition handled (s s' : State) : Prop :=
  ∃ msg ts, s' = final (message_handler msg ts s).

(** The messages [message_handler] passes to [_book]. *)
Definition is_book_message (msg : Msg) : Prop :=
  (msg_type msg = "channel_data" ∨ msg_type msg = "subscribed") ∧
  exchange_channel_to_std (msg_channel msg) = L2_BOOK.

End runs.
End dYdXRuns.

(** ** Upbit: whole runs of the adapter *)

Module UpbitRuns.
Import Upbit.

(** Every level of every book has a price above 0. *)
Definition positive_prices (s : State) : Prop :=
  ∀ pair ob sd p sz,
    _l2_book s !! pair = Some ob → book_side sd ob !! p = Some sz → (0 < p)%Qc.

(** The element of the subscribe payload a subscribed channel gives, if
    any. *)
Definition chan_entry (cs : string * list string) : option json :=
  let codes := JList (JStr <$> cs.2) in
  if decide (cs.1 = L2_BOOK)
  then Some (JObj [("type", JStr "orderbook"); ("codes", codes);
                   ("isOnlyRealtime", JBool true)])
  else if decide (cs.1 = TRADES)
  then Some (JObj [("type", JStr "trade"); ("codes", codes);
                   ("isOnlyRealtime", JBool true)])
  else None.

Section runs.
Context {feed : Feed}.

(** One handled message of any kind, returning or raising. *)
Definition handled (s s' : State) : Prop :=
  ∃ msg ts, s' = final (message_handler msg ts s).

End runs.
End UpbitRuns.

(** ** The instrument catalogs: [_parse_symbol_data] *)

Module Catalog.
Import Stdlib.Strings.Ascii.

(** Modelled from the spec: [Symbol] of [cryptofeed.symbols], which is
    not among the sources.  A symbol is made from base asset, quote
    asset and instrument type; its canonical name [normalized] and the
    default type [SPOT] of the constructor are taken as parameters. *)
Record Symbol := mkSymbol {
  sym_base : string;
  sym_quote : string;
  sym_type : string
}.

Class SymbolLib := {
  normalized : Symbol → string;
  SPOT : string
}.

(** [str.lower()] on ASCII text, which is what the catalogs hold. *)
Definition lower_char (c : ascii) : ascii :=
  let n := N_of_ascii c in
  if ((65 <=? n)%N && (n <=? 90)%N)%bool then ascii_of_N (n + 32) else c.

Fixpoint lower (s : string) : string :=
  match s with
  | EmptyString => EmptyString
  | String c s' => String (lower_char c) (lower s')
  end.

(** [s.split(sep)] for a separator of one character. *)
Fixpoint split (sep : ascii) (s : string) : list string :=
  match s with
  | EmptyString => [EmptyString]
  | String c s' =>
      if decide (c = sep) then EmptyString :: split sep s'
      else match split sep s' with
           | w :: ws => String c w :: ws
           | [] => [String c EmptyString]
           end
  end.

(** [sep.join(l)] and the number of occurrences of [sep] in [s]. *)
Fixpoint join (sep : ascii) (l : list string) : string :=
  match l with
  | [] => EmptyString
  | [w] => w
  | w :: ws => w +:+ String sep (join sep ws)
  end.

Fixpoint count_char (sep : ascii) (s : string) : nat :=
  match s with
  | EmptyString => 0
  | String c s' => (if decide (c = sep) then 1 else 0) + count_char sep s'
  end.

(** The two dictionaries a parser returns: [ret], from canonical name to
    exchange name, and [info], from a kind of information to a
    dictionary from canonical name to that information. *)
Abbreviation Names := (gmap string string).
Abbreviation Info := (gmap string (gmap string string)).

(** [info[kind][name] = v] on a [defaultdict(dict)]: a missing [kind]
    starts as an empty dictionary. *)
Definition info_set (kind name v : string) (info : Info) : Info :=
  <[kind := <[name := v]> (default ∅ (info !! kind))]> info.

(** [info[kind][name]], if both keys are there. *)
Definition info_get (kind name : string) (info : Info) : option string :=
  info !! kind ≫= (.!! name).

Module dYdX.

(** One value of [data['markets']]; [tickSize] is kept as on the wire. *)
Record Market := mkMarket {
  m_status : string;
  m_type : string;
  m_baseAsset : string;
  m_quoteAsset : string;
  m_tickSize : string
}.

Section parse.
Context {lib : SymbolLib}.

(** The symbol the loop builds for an entry. *)
Definition market_symbol (entry : Market) : Symbol :=
  mkSymbol (m_baseAsset entry) (m_quoteAsset entry) (lower (m_type entry)).

(** Body of the loop over [data['markets'].items()]. *)
Definition parse_market (acc : Names * Info) (item : string * Market) : Names * Info :=
  let symbol := item.1 in
  let entry := item.2 in
  if decide (m_status entry ≠ "ONLINE") then acc
  else
    let stype := lower (m_type entry) in
    let s := mkSymbol (m_baseAsset entry) (m_quoteAsset entry) stype in
    let ret := <[normalized s := symbol]> acc.1 in
    let info := info_set "tick_size" (normalized s) (m_tickSize entry) acc.2 in
    let info := info_set "instrument_type" (normalized s) stype info in
    (ret, info).

(** [def _parse_symbol_data(cls, data)], on the items of
    [data['markets']]. *)
Definition _parse_symbol_data (markets : list (string * Market)) : Names * Info :=
  foldl parse_market (∅, ∅) markets.

Definition online (item : string * Market) : Prop := m_status item.2 = "ONLINE".

End parse.
End dYdX.

Module Upbit.

(** What the unpacking [quote, base = ...] raises unless the list has
    exactly two elements. *)
Inductive Exn := ValueError.

Definition unpack2 (l : list string) : Exn + (string * string) :=
  match l with
  | [a; b] => inr (a, b)
  | _ => inl ValueError
  end.

Section parse.
Context {lib : SymbolLib}.

(** The loop over [data], each entry given by its ['market'] code; the
    locals are [ret] and the dictionary [info['instrument_type']]. *)
Fixpoint parse_markets (data : list string) (ret types : Names) : Exn + (Names * Names) :=
  match data with
  | [] => inr (ret, types)
  | market :: data' =>
      match unpack2 (split "-"%char market) with
      | inl e => inl e
      | inr (quote, base) =>
          let s := mkSymbol base quote SPOT in
          parse_markets data' (<[normalized s := market]> ret)
                        (<[normalized s := sym_type s]> types)
      end
  end.

(** [def _parse_symbol_data(cls, data)] *)
Definition _parse_symbol_data (data : list string) : Exn + (Names * Info) :=
  match parse_markets data ∅ ∅ with
  | inl e => inl e
  | inr (ret, types) => inr (ret, {["instrument_type" := types]})
  end.

End parse.
End Upbit.

(** A symbol library in the style of the real one: BASE-QUOTE, with
    -PERP appended for perpetuals. *)
Definition demo_lib : SymbolLib := {|
  normalized := λ s,
    sym_base s +:+ "-" +:+ sym_quote s +:+
    (if decide (sym_type s = "perpetual") then "-PERP" else "");
  SPOT := "spot"
|}.

Definition demo_markets : list (string * dYdX.Market) :=
  [("BTC-USD", dYdX.mkMarket "ONLINE" "PERPETUAL" "BTC" "USD" "1");
   ("LUNA-USD", dYdX.mkMarket "OFFLINE" "PERPETUAL" "LUNA" "USD" "0.0001");
   ("ETH-USD", dYdX.mkMarket "ONLINE" "PERPETUAL" "ETH" "USD" "0.1")].

End Catalog.

(** What a parsed dYdX catalog holds for a canonical name: exchange
    name, tick size and instrument type. *)
Definition catalog_at (name : string) (acc : Catalog.Names * Catalog.Info)
  : option string * option string * option string :=
  (acc.1 !! name,
   Catalog.info_get "tick_size" name acc.2,
   Catalog.info_get "instrument_type" name acc.2).

(** Either a name is in none of the three dictionaries, or it is in all
    of them and its instrument type is in lower case. *)
Definition complete_at (v : option string * option string * option string) : Prop :=
  v = (None, None, None) ∨
  ∃ sym tick type, v = (Some sym, Some tick, Some type) ∧ Catalog.lower type = type.

(** * Proofs *)

(** ** The monad *)

Section monad_facts.
Context {S E : Type}.

Lemma bind_ok {A B} (m : Py S E A) (k : A → Py S E B) s a s1 out1 :
  m s = (inr a, s1, out1) →
  bind m k s = ((k a s1).1.1, (k a s1).1.2, out1 ++ (k a s1).2).
Proof. unfold bind. intros ->. by destruct (k a s1) as [[??]?]. Qed.

Lemma bind_exn {A B} (m : Py S E A) (k : A → Py S E B) s e s1 out1 :
  m s = (inl e, s1, out1) → bind m k s = (inl e, s1, out1).
Proof. unfold bind. by intros ->. Qed.

Lemma for_map_emit {A} (f : A → E) (l : list A) (s : S) :
  for_ l (λ x, emit (f x)) s = (inr tt, s, f <$> l).
Proof.
  induction l as [|x l IH]; [done|].
  simpl. unfold bind at 1. simpl. by rewrite IH.
Qed.

End monad_facts.

(** ** dYdX: one level, one side, one message *)

Section dYdX_facts.
Import dYdX.
Context {feed : Feed}.

Lemma set_book_side_id side ob : set_book_side side (book_side side ob) ob = ob.
Proof. by destruct side, ob. Qed.

Lemma book_side_set side lv ob : book_side side (set_book_side side lv ob) = lv.
Proof. by destruct side. Qed.

Lemma book_side_set_ne side side' lv ob :
  side ≠ side' → book_side side' (set_book_side side lv ob) = book_side side' ob.
Proof. by destruct side, side'. Qed.

Lemma put_pair_id pair B L s :
  _l2_book s !! pair = Some B → _offsets s !! pair = Some L → put_pair pair B L s = s.
Proof.
  intros HB HL. destruct s as [bk off]. unfold put_pair. simpl in *.
  by rewrite (insert_id _ _ _ HB), (insert_id _ _ _ HL).
Qed.

Lemma put_pair_put pair B L B' L' s :
  put_pair pair B' L' (put_pair pair B L s) = put_pair pair B' L' s.
Proof. unfold put_pair. simpl. by rewrite !insert_insert_eq. Qed.

Lemma book_level_run s pair L B offset side loc data :
  _offsets s !! pair = Some L →
  _l2_book s !! pair = Some B →
  book_level pair offset side loc data s =
    if stale L data.1 offset then (inr loc, s, [])
    else (inr (true, delta_append side data loc.2),
          put_pair pair (level_book side B data) (record_offset offset L data) s,
          []).
Proof.
  intros HL HB. destruct data as [price amount], s as [bk off]. simpl in *.
  unfold book_level, offsets_at, store_offset, offsets_at, set_offsets, book_at,
    del_level, store_level, set_book, book_at, level_book, put_pair, record_offset.
  py_unfold.
  rewrite HL. destruct (stale L price offset); [done|]. simpl.
  rewrite HL. simpl.
  destruct (decide (amount = 0%Qc)) as [->|Hne]; simpl; rewrite !HB; simpl.
  - destruct (decide (is_Some (book_side side B !! price))) as [[v Hv]|Hno]; simpl.
    + rewrite HB. simpl. rewrite Hv. done.
    + apply eq_None_not_Some in Hno. rewrite (delete_id _ _ Hno), set_book_side_id.
      by rewrite (insert_id _ _ _ HB).
  - done.
Qed.

(** Within one message every level carries the same offset, so recording
    it for an applied price does not change which levels are stale. *)
Lemma stale_record L offset data p :
  stale L data.1 offset = false →
  stale (record_offset offset L data) p offset = stale L p offset.
Proof.
  intros Hf. unfold stale, record_offset in *.
  destruct (decide (data.1 = p)) as [<-|Hne].
  - rewrite lookup_insert_eq. rewrite Hf. apply bool_decide_eq_false. lia.
  - by rewrite lookup_insert_ne.
Qed.

Lemma applied_record L offset data l :
  stale L data.1 offset = false →
  applied (record_offset offset L data) offset l = applied L offset l.
Proof.
  intros Hf. unfold applied. apply list_filter_iff. intros d.
  by rewrite stale_record.
Qed.

Lemma applied_cons L offset d l :
  applied L offset (d :: l) =
    if stale L d.1 offset then applied L offset l else d :: applied L offset l.
Proof.
  unfold applied. rewrite filter_cons.
  destruct (stale L d.1 offset); by case_decide.
Qed.

Lemma levels_run pair offset side l : ∀ s L B loc,
  _offsets s !! pair = Some L →
  _l2_book s !! pair = Some B →
  for_acc l (book_level pair offset side) loc s =
    (inr (loc.1 || bool_decide (applied L offset l ≠ []),
          extend_delta side loc.2 (applied L offset l)),
     put_pair pair (foldl (level_book side) B (applied L offset l))
                   (foldl (record_offset offset) L (applied L offset l)) s,
     []).
Proof.
  induction l as [|d l IH]; intros s L B [u dl] HL HB.
  - simpl. py_unfold. rewrite orb_false_r. by rewrite put_pair_id.
  - simpl. rewrite applied_cons.
    pose proof (book_level_run s pair L B offset side (u, dl) d HL HB) as Hd.
    destruct (stale L d.1 offset) eqn:Hst.
    + rewrite (bind_ok _ _ _ _ _ _ Hd). rewrite (IH s L B (u, dl) HL HB). done.
    + rewrite (bind_ok _ _ _ _ _ _ Hd).
      set (s1 := put_pair _ _ _ s).
      assert (_offsets s1 !! pair = Some (record_offset offset L d)) as HL1
        by apply lookup_insert_eq.
      assert (_l2_book s1 !! pair = Some (level_book side B d)) as HB1
        by apply lookup_insert_eq.
      rewrite (IH s1 _ _ _ HL1 HB1). simpl.
      rewrite (applied_record _ _ _ _ Hst). subst s1. rewrite put_pair_put.
      rewrite orb_true_r. done.
Qed.

Lemma applied_foldl offset l : ∀ L l',
  Forall (λ d, stale L d.1 offset = false) l' →
  applied (foldl (record_offset offset) L l') offset l = applied L offset l.
Proof.
  intros L l'. revert L. induction l' as [|d l' IH]; intros L Hall; [done|].
  apply Forall_cons in Hall as [Hd Hall]. simpl.
  rewrite IH, applied_record; [done..|].
  eapply Forall_impl; [exact Hall|]. intros x Hx. by rewrite stale_record.
Qed.

Lemma applied_fresh L offset l :
  Forall (λ d, stale L d.1 offset = false) (applied L offset l).
Proof. apply Forall_forall. intros d Hd. by apply list_elem_of_filter in Hd as [? _]. Qed.

Lemma extend_delta_bid d l :
  extend_delta BID d l = mkDelta (delta_bid d ++ l) (delta_ask d).
Proof.
  revert d. induction l as [|x l IH]; intros [b a].
  - simpl. by rewrite app_nil_r.
  - change (extend_delta ?sd ?d0 (x :: l)) with (extend_delta sd (delta_append sd x d0) l).
    rewrite IH. simpl. by rewrite <- app_assoc.
Qed.

Lemma extend_delta_ask d l :
  extend_delta ASK d l = mkDelta (delta_bid d) (delta_ask d ++ l).
Proof.
  revert d. induction l as [|x l IH]; intros [b a].
  - simpl. by rewrite app_nil_r.
  - change (extend_delta ?sd ?d0 (x :: l)) with (extend_delta sd (delta_append sd x d0) l).
    rewrite IH. simpl. by rewrite <- app_assoc.
Qed.

Lemma book_at_put pair B L s :
  book_at pair (put_pair pair B L s) = (inr B, put_pair pair B L s, []).
Proof. unfold book_at. py_unfold. by rewrite lookup_insert_eq. Qed.

Lemma book_update_run s msg ts pair L B offset bids asks :
  msg_type msg = "channel_data" →
  msg_contents msg = Update offset bids asks →
  exchange_symbol_to_std_symbol (msg_id msg) = pair →
  _offsets s !! pair = Some L →
  _l2_book s !! pair = Some B →
  _book msg ts s =
    (inr tt,
     put_pair pair (updated_book L offset bids asks B) (updated_ledger L offset bids asks) s,
     update_events msg ts (updated_book L offset bids asks B)
       (applied L offset bids) (applied L offset asks)).
Proof.
  intros Hty Hc Hp HL HB. unfold _book. rewrite Hty, Hc, Hp.
  rewrite decide_True by done.
  rewrite (bind_ok _ _ _ _ _ _ (levels_run pair offset BID bids s L B _ HL HB)).
  set (s1 := put_pair _ _ _ s).
  set (L1 := foldl (record_offset offset) L (applied L offset bids)).
  set (B1 := foldl (level_book BID) B (applied L offset bids)).
  assert (_offsets s1 !! pair = Some L1) as HL1 by apply lookup_insert_eq.
  assert (_l2_book s1 !! pair = Some B1) as HB1 by apply lookup_insert_eq.
  rewrite (bind_ok _ _ _ _ _ _ (levels_run pair offset ASK asks s1 L1 B1 _ HL1 HB1)).
  assert (applied L1 offset asks = applied L offset asks) as ->
    by apply applied_foldl, applied_fresh.
  subst s1. rewrite put_pair_put. simpl.
  rewrite extend_delta_bid, extend_delta_ask. simpl.
  unfold updated_book, updated_ledger, update_events. rewrite foldl_app. fold L1 B1.
  destruct (applied L offset bids) as [|b ab]; destruct (applied L offset asks) as [|a aa];
    simpl; try done.
  all: by rewrite (bind_ok _ _ _ _ _ _ (book_at_put _ _ _ _)).
Qed.

(** *** Snapshots *)

Lemma snapshot_entry_run s pair L B side entry :
  _offsets s !! pair = Some L →
  _l2_book s !! pair = Some B →
  snapshot_entry pair side entry s =
    (inr tt, put_pair pair (install_entry B (side, entry)) (seed_entry L (side, entry)) s, []).
Proof.
  intros HL HB. destruct s as [bk off]. simpl in *.
  unfold snapshot_entry, store_offset, offsets_at, set_offsets, store_level, book_at,
    set_book, install_entry, seed_entry, put_pair.
  py_unfold. rewrite HL. simpl.
  destruct (decide (0 < e_size entry)%Qc); simpl.
  - by rewrite HB.
  - by rewrite (insert_id _ _ _ HB).
Qed.

Lemma snapshot_side_run pair kv : ∀ s L B,
  _offsets s !! pair = Some L →
  _l2_book s !! pair = Some B →
  snapshot_side pair kv s =
    (inr tt,
     put_pair pair (foldl install_entry B ((λ e, (side_of_key kv.1, e)) <$> kv.2))
                   (foldl seed_entry L ((λ e, (side_of_key kv.1, e)) <$> kv.2)) s,
     []).
Proof.
  unfold snapshot_side. fold (side_of_key kv.1).
  induction kv.2 as [|e l IH]; intros s L B HL HB.
  - simpl. py_unfold. by rewrite put_pair_id.
  - simpl.
    rewrite (bind_ok _ _ _ _ _ _ (snapshot_entry_run s pair L B _ e HL HB)).
    set (s1 := put_pair _ _ _ s).
    rewrite (IH s1 _ _ (lookup_insert_eq _ _ _) (lookup_insert_eq _ _ _)).
    subst s1. by rewrite put_pair_put.
Qed.

Lemma snapshot_entries_cons kv sides :
  snapshot_entries (kv :: sides) =
    ((λ e, (side_of_key kv.1, e)) <$> kv.2) ++ snapshot_entries sides.
Proof. done. Qed.

Lemma snapshot_sides_run pair sides : ∀ s L B,
  _offsets s !! pair = Some L →
  _l2_book s !! pair = Some B →
  for_ sides (snapshot_side pair) s =
    (inr tt,
     put_pair pair (foldl install_entry B (snapshot_entries sides))
                   (foldl seed_entry L (snapshot_entries sides)) s,
     []).
Proof.
  induction sides as [|kv sides IH]; intros s L B HL HB.
  - simpl. py_unfold. by rewrite put_pair_id.
  - rewrite snapshot_entries_cons, !foldl_app. cbn [for_].
    rewrite (bind_ok _ _ _ _ _ _ (snapshot_side_run pair kv s L B HL HB)).
    set (s1 := put_pair _ _ _ s).
    rewrite (IH s1 _ _ (lookup_insert_eq _ _ _) (lookup_insert_eq _ _ _)).
    subst s1. by rewrite put_pair_put.
Qed.

Lemma book_snapshot_run s msg ts pair sides :
  msg_type msg ≠ "channel_data" →
  msg_contents msg = Snapshot sides →
  exchange_symbol_to_std_symbol (msg_id msg) = pair →
  _book msg ts s =
    (inr tt,
     put_pair pair (snapshot_book pair sides) (snapshot_ledger sides) s,
     [BookCallback L2_BOOK (snapshot_book pair sides) ts None None msg]).
Proof.
  intros Hty Hc Hp. unfold _book. rewrite Hc, Hp.
  rewrite decide_False by done.
  unfold set_book, set_offsets.
  unfold bind at 1. unfold modify at 1. unfold bind at 1. unfold modify at 1.
  set (s0 := mkState _ _).
  assert (s0 = put_pair pair (OrderBook_new id pair max_depth) ∅ s) as -> by done.
  set (s0 := put_pair _ _ _ s).
  rewrite (bind_ok _ _ _ _ _ _
    (snapshot_sides_run pair sides s0 _ _ (lookup_insert_eq _ _ _) (lookup_insert_eq _ _ _))).
  subst s0. rewrite put_pair_put. simpl.
  by rewrite (bind_ok _ _ _ _ _ _ (book_at_put _ _ _ _)).
Qed.

End dYdX_facts.

(** ** dYdX: properties of updates *)

Section dYdX_updates.
Import dYdX.
Context {feed : Feed}.

Lemma handler_book msg ts :
  msg_type msg = "channel_data" ∨ msg_type msg = "subscribed" →
  exchange_channel_to_std (msg_channel msg) = L2_BOOK →
  message_handler msg ts = _book msg ts.
Proof.
  intros Hty Hch. unfold message_handler.
  rewrite decide_True by done. rewrite Hch. by rewrite decide_True.
Qed.

Lemma handler_trade msg ts :
  msg_type msg = "channel_data" ∨ msg_type msg = "subscribed" →
  exchange_channel_to_std (msg_channel msg) = TRADES →
  message_handler msg ts = _trade msg ts.
Proof.
  intros Hty Hch. unfold message_handler.
  rewrite decide_True by done. rewrite Hch.
  rewrite decide_False by done. by rewrite decide_True.
Qed.

Lemma stale_false_accepts L price offset :
  stale L price offset = false ↔ accepts L price offset.
Proof.
  unfold stale, accepts. destruct (L !! price) as [t|]; [|by split; [left|]].
  rewrite bool_decide_eq_false. split.
  - intros Hlt. right. exists t. split; [done|lia].
  - intros [?|(t' & [= <-] & Hle)]; [done|lia].
Qed.

Lemma stale_true_iff L price offset :
  stale L price offset = true ↔ ∃ t, L !! price = Some t ∧ offset < t.
Proof.
  unfold stale. destruct (L !! price) as [t|].
  - rewrite bool_decide_eq_true. split; [by exists t|]. by intros (t' & [= <-] & Hlt).
  - split; [done|]. by intros (t' & [=] & _).
Qed.

Lemma level_book_other side sd B d p :
  d.1 ≠ p → book_side sd (level_book side B d) !! p = book_side sd B !! p.
Proof.
  intros Hne. unfold level_book.
  destruct (decide (side = sd)) as [->|Hsd]; case_decide;
    rewrite ?book_side_set, ?(book_side_set_ne _ _ _ _ Hsd);
    by rewrite ?lookup_delete_ne, ?lookup_insert_ne.
Qed.

Lemma levels_book_other side sd l p : ∀ B,
  Forall (λ d, d.1 ≠ p) l →
  book_side sd (foldl (level_book side) B l) !! p = book_side sd B !! p.
Proof.
  induction l as [|d l IH]; intros B Hall; [done|].
  apply Forall_cons in Hall as [Hd Hall]. simpl.
  by rewrite IH, level_book_other.
Qed.

Lemma record_other offset l p : ∀ L,
  Forall (λ d, d.1 ≠ p) l →
  foldl (record_offset offset) L l !! p = L !! p.
Proof.
  induction l as [|d l IH]; intros L Hall; [done|].
  apply Forall_cons in Hall as [Hd Hall]. simpl.
  rewrite IH by done. unfold record_offset. by rewrite lookup_insert_ne.
Qed.

Lemma applied_avoids L offset l p :
  stale L p offset = true → Forall (λ d, d.1 ≠ p) (applied L offset l).
Proof.
  intros Hst. apply Forall_forall. intros d Hd Heq.
  apply list_elem_of_filter in Hd as [Hf _]. congruence.
Qed.

(** A price that is stale when the message arrives is left alone by the
    whole message. *)
Lemma stale_price_untouched L B offset bids asks p :
  stale L p offset = true →
  (∀ sd, book_side sd (updated_book L offset bids asks B) !! p = book_side sd B !! p) ∧
  updated_ledger L offset bids asks !! p = L !! p ∧
  (∀ amount, (p, amount) ∉ applied L offset bids) ∧
  (∀ amount, (p, amount) ∉ applied L offset asks).
Proof.
  intros Hst. split_and!.
  - intros sd. unfold updated_book.
    by rewrite !levels_book_other by by apply applied_avoids.
  - unfold updated_ledger. apply record_other, Forall_app. split; by apply applied_avoids.
  - intros amount Hin.
    by eapply (proj1 (Forall_forall _ _) (applied_avoids L offset bids p Hst)) in Hin.
  - intros amount Hin.
    by eapply (proj1 (Forall_forall _ _) (applied_avoids L offset asks p Hst)) in Hin.
Qed.

Lemma update_events_mentions msg ts B' ab aa p :
  delta_mentions (update_events msg ts B' ab aa) p →
  ∃ amount, (p, amount) ∈ ab ∨ (p, amount) ∈ aa.
Proof.
  unfold delta_mentions, update_events.
  intros (bt & b & r & t & d & raw & amount & Hin & Hp).
  case_bool_decide; [|by apply elem_of_nil in Hin].
  apply list_elem_of_singleton in Hin. injection Hin as _ _ _ _ -> _.
  by exists amount.
Qed.

(** An update message at a price whose recorded token exceeds the
    message's: book and ledger keep the price as it was and no emitted
    delta mentions it. *)
Lemma update_stale_price s pair L B msg ts offset bids asks price recorded :
  _offsets s !! pair = Some L →
  _l2_book s !! pair = Some B →
  msg_type msg = "channel_data" →
  exchange_channel_to_std (msg_channel msg) = L2_BOOK →
  exchange_symbol_to_std_symbol (msg_id msg) = pair →
  msg_contents msg = Update offset bids asks →
  L !! price = Some recorded → offset < recorded →
  let r := message_handler msg ts s in
  ∃ B', outcome r = inr tt ∧
        _l2_book (final r) !! pair = Some B' ∧
        (∀ sd, book_side sd B' !! price = book_side sd B !! price) ∧
        token (final r) pair price = Some recorded ∧
        ¬ delta_mentions (effects r) price.
Proof.
  intros HL HB Hty Hch Hp Hc Ht Hlt r.
  assert (stale L price offset = true) as Hst by (apply stale_true_iff; eauto).
  subst r. rewrite (handler_book msg ts (or_introl Hty) Hch).
  rewrite (book_update_run s msg ts pair L B offset bids asks Hty Hc Hp HL HB).
  destruct (stale_price_untouched L B offset bids asks price Hst) as (Hbk & Hled & Hdb & Hda).
  exists (updated_book L offset bids asks B). split_and!; try done.
  - apply lookup_insert_eq.
  - unfold token, final. simpl. rewrite lookup_insert_eq. simpl. by rewrite Hled.
  - intros [amount [Hm|Hm]]%update_events_mentions;
      [by apply (Hdb amount)|by apply (Hda amount)].
Qed.

(** C1: a level is applied exactly when the ledger has no entry for its
    price or the message's token is at least the recorded one; a level
    whose token is below the recorded one leaves the state as it is, and
    over a whole message such a price is neither changed in the book nor
    mentioned in the emitted delta. *)
Theorem dydx_stale_rejection s pair L B :
  _offsets s !! pair = Some L →
  _l2_book s !! pair = Some B →
  (∀ offset side loc price amount,
     let r := book_level pair offset side loc (price, amount) s in
     ((∃ loc', outcome r = inr loc' ∧
               loc'.2 = delta_append side (price, amount) loc.2)
        ↔ accepts L price offset) ∧
     (accepts L price offset →
        r = (inr (true, delta_append side (price, amount) loc.2),
             put_pair pair (level_book side B (price, amount))
                           (<[price := offset]> L) s, [])) ∧
     (∀ recorded, L !! price = Some recorded → offset < recorded →
        r = (inr loc, s, []))) ∧
  (∀ msg ts offset bids asks price recorded,
     msg_type msg = "channel_data" →
     exchange_channel_to_std (msg_channel msg) = L2_BOOK →
     exchange_symbol_to_std_symbol (msg_id msg) = pair →
     msg_contents msg = Update offset bids asks →
     L !! price = Some recorded → offset < recorded →
     let r := message_handler msg ts s in
     ∃ B', outcome r = inr tt ∧
           _l2_book (final r) !! pair = Some B' ∧
           (∀ sd, book_side sd B' !! price = book_side sd B !! price) ∧
           token (final r) pair price = Some recorded ∧
           ¬ delta_mentions (effects r) price).
Proof.
  intros HL HB. split.
  - intros offset side loc price amount r.
    pose proof (book_level_run s pair L B offset side loc (price, amount) HL HB) as Hr.
    fold r in Hr. simpl in Hr. split_and!.
    + rewrite <- stale_false_accepts. destruct (stale L price offset); rewrite Hr.
      * split; [|done]. intros (loc' & [= <-] & Heq). exfalso.
        destruct side, loc as [u [b a]]; simpl in Heq;
          apply (f_equal (λ d, length (delta_bid d) + length (delta_ask d))%nat) in Heq;
          simpl in Heq; rewrite length_app in Heq; simpl in Heq; lia.
      * split; [done|]. intros _. by eexists.
    + intros Hacc%stale_false_accepts. by rewrite Hacc in Hr.
    + intros t Ht Hlt. assert (stale L price offset = true) as Hst
        by (apply stale_true_iff; eauto).
      by rewrite Hst in Hr.
  - intros msg ts offset bids asks price t Hty Hch Hp Hc Ht Hlt.
    by eapply update_stale_price.
Qed.

End dYdX_updates.

Section dYdX_witnesses.
Import dYdX.

Lemma dydx_stale_rejection_witness :
  ∃ B', outcome (message_handler (feed := Demo.dydx_feed) Demo.update_stale 0%float Demo.state_A) = inr tt ∧
        _l2_book (final (message_handler (feed := Demo.dydx_feed) Demo.update_stale 0%float Demo.state_A))
          !! "BTC-USD" = Some B' ∧
        (∀ sd, book_side sd B' !! Demo.dec 100 = book_side sd Demo.book_A !! Demo.dec 100) ∧
        token (final (message_handler (feed := Demo.dydx_feed) Demo.update_stale 0%float Demo.state_A))
          "BTC-USD" (Demo.dec 100) = Some 5 ∧
        ¬ delta_mentions
            (effects (message_handler (feed := Demo.dydx_feed) Demo.update_stale 0%float Demo.state_A))
            (Demo.dec 100).
Proof.
  refine (proj2 (dydx_stale_rejection (feed := Demo.dydx_feed) Demo.state_A "BTC-USD"
                   Demo.ledger_A Demo.book_A _ _)
            Demo.update_stale 0%float 4 [(Demo.dec 100, Demo.dec 1)] [] (Demo.dec 100) 5
            _ _ _ _ _ _).
  all: vm_compute; reflexivity.
Defined.

End dYdX_witnesses.

Section dYdX_batches.
Import dYdX.
Context {feed : Feed}.

Lemma applied_nil L offset l :
  Forall (λ d, stale L d.1 offset = true) l → applied L offset l = [].
Proof.
  induction 1 as [|d l Hd _ IH]; [done|].
  by rewrite applied_cons, Hd.
Qed.

Lemma applied_not_nil L offset l :
  Exists (λ d, stale L d.1 offset = false) l → applied L offset l ≠ [].
Proof.
  induction 1 as [d l Hd|d l _ IH]; rewrite applied_cons.
  - by rewrite Hd.
  - by destruct (stale L d.1 offset).
Qed.

(** C4: when every level of an update is stale against the ledger the
    message leaves the state alone and emits nothing; when some level is
    not, exactly one book callback is emitted, whose delta lists the
    levels that are not stale, side by side and in wire order. *)
Theorem dydx_empty_delta_suppression s msg ts pair L B offset bids asks :
  msg_type msg = "channel_data" →
  exchange_channel_to_std (msg_channel msg) = L2_BOOK →
  exchange_symbol_to_std_symbol (msg_id msg) = pair →
  msg_contents msg = Update offset bids asks →
  _offsets s !! pair = Some L →
  _l2_book s !! pair = Some B →
  let r := message_handler msg ts s in
  (Forall (λ d, stale L d.1 offset = true) (bids ++ asks) → r = (inr tt, s, [])) ∧
  (Exists (λ d, stale L d.1 offset = false) (bids ++ asks) →
     ∃ B', outcome r = inr tt ∧
           _l2_book (final r) !! pair = Some B' ∧
           effects r =
             [BookCallback L2_BOOK B' ts None
                (Some (mkDelta (filter (λ d, stale L d.1 offset = false) bids)
                               (filter (λ d, stale L d.1 offset = false) asks)))
                msg]).
Proof.
  intros Hty Hch Hp Hc HL HB r. subst r.
  rewrite (handler_book msg ts (or_introl Hty) Hch).
  rewrite (book_update_run s msg ts pair L B offset bids asks Hty Hc Hp HL HB).
  fold (applied L offset bids) (applied L offset asks). split.
  - intros [Hb Ha]%Forall_app.
    unfold updated_book, updated_ledger, update_events.
    rewrite (applied_nil _ _ _ Hb), (applied_nil _ _ _ Ha). simpl.
    by rewrite put_pair_id.
  - intros Hex. exists (updated_book L offset bids asks B). split_and!; [done| |].
    + apply lookup_insert_eq.
    + unfold effects, update_events. simpl. rewrite bool_decide_eq_true_2; [done|].
      apply Exists_app in Hex as [Hex|Hex]; apply applied_not_nil in Hex; intros Heq;
        apply app_eq_nil in Heq as [? ?]; done.
Qed.

Lemma level_book_zero side B price :
  let B' := level_book side B (price, 0%Qc) in
  book_side side B' !! price = None ∧
  (∀ p, p ≠ price → book_side side B' !! p = book_side side B !! p) ∧
  (∀ sd, sd ≠ side → book_side sd B' = book_side sd B) ∧
  (book_side side B !! price = None → B' = B).
Proof.
  intros B'. subst B'. unfold level_book. cbn [fst snd].
  rewrite decide_True by done. split_and!.
  - rewrite book_side_set. apply lookup_delete_eq.
  - intros p Hp. rewrite book_side_set. by apply lookup_delete_ne.
  - intros sd Hsd. by apply book_side_set_ne.
  - intros Hno. by rewrite (delete_id _ _ Hno), set_book_side_id.
Qed.

Lemma level_book_no_zero side B d :
  no_zero_level B → no_zero_level (level_book side B d).
Proof.
  intros HB sd p. unfold level_book.
  destruct (decide (side = sd)) as [->|Hsd]; case_decide;
    rewrite ?book_side_set, ?(book_side_set_ne _ _ _ _ Hsd); try apply HB.
  - destruct (decide (d.1 = p)) as [->|Hp];
      [by rewrite lookup_delete_eq|rewrite lookup_delete_ne by done; apply HB].
  - destruct (decide (d.1 = p)) as [->|Hp];
      [rewrite lookup_insert_eq; congruence|rewrite lookup_insert_ne by done; apply HB].
Qed.

Lemma levels_book_no_zero side l : ∀ B,
  no_zero_level B → no_zero_level (foldl (level_book side) B l).
Proof.
  induction l as [|d l IH]; intros B HB; [done|].
  simpl. by apply IH, level_book_no_zero.
Qed.

(** C5 (as the code has it): an accepted level of size 0 removes its
    price from its side of the book and leaves the rest of the book as it
    is, so for an absent price the book does not change; in both cases the
    level counts as applied: the ledger records the token and the pair
    (price, 0) is appended to the delta, which the message then emits.
    No update puts a zero size into a book that had none. *)
Theorem dydx_zero_size_removal s pair L B :
  _offsets s !! pair = Some L →
  _l2_book s !! pair = Some B →
  (∀ offset side loc price,
     accepts L price offset →
     let r := book_level pair offset side loc (price, 0%Qc) s in
     ∃ B', r = (inr (true, delta_append side (price, 0%Qc) loc.2),
                put_pair pair B' (<[price := offset]> L) s, []) ∧
           book_side side B' !! price = None ∧
           (∀ p, p ≠ price → book_side side B' !! p = book_side side B !! p) ∧
           (∀ sd, sd ≠ side → book_side sd B' = book_side sd B) ∧
           (book_side side B !! price = None → B' = B)) ∧
  (∀ msg ts offset bids asks,
     msg_type msg = "channel_data" →
     exchange_channel_to_std (msg_channel msg) = L2_BOOK →
     exchange_symbol_to_std_symbol (msg_id msg) = pair →
     msg_contents msg = Update offset bids asks →
     let r := message_handler msg ts s in
     ∃ B', _l2_book (final r) !! pair = Some B' ∧
           (no_zero_level B → no_zero_level B') ∧
           (∀ price, accepts L price offset →
              (price, 0%Qc) ∈ bids ∨ (price, 0%Qc) ∈ asks →
              ∃ delta, effects r = [BookCallback L2_BOOK B' ts None (Some delta) msg] ∧
                       ((price, 0%Qc) ∈ bids → (price, 0%Qc) ∈ delta_bid delta) ∧
                       ((price, 0%Qc) ∈ asks → (price, 0%Qc) ∈ delta_ask delta))).
Proof.
  intros HL HB. split.
  - intros offset side loc price Hacc%stale_false_accepts r.
    pose proof (book_level_run s pair L B offset side loc (price, 0%Qc) HL HB) as Hr.
    fold r in Hr. simpl in Hr. rewrite Hacc in Hr.
    exists (level_book side B (price, 0%Qc)). split; [done|].
    apply level_book_zero.
  - intros msg ts offset bids asks Hty Hch Hp Hc r. subst r.
    rewrite (handler_book msg ts (or_introl Hty) Hch).
    rewrite (book_update_run s msg ts pair L B offset bids asks Hty Hc Hp HL HB).
    exists (updated_book L offset bids asks B). split_and!.
    + apply lookup_insert_eq.
    + intros Hz. by apply levels_book_no_zero, levels_book_no_zero.
    + intros price Hacc%stale_false_accepts Hin.
      assert (∀ l, (price, 0%Qc) ∈ l → (price, 0%Qc) ∈ applied L offset l) as Happ.
      { intros l Hl. by apply list_elem_of_filter. }
      exists (mkDelta (applied L offset bids) (applied L offset asks)).
      split_and!; [|intros Hl; simpl; by apply Happ..].
      unfold effects, update_events. simpl. rewrite bool_decide_eq_true_2; [done|].
      intros [Hb Ha]%app_eq_nil.
      destruct Hin as [Hin|Hin]; apply Happ in Hin;
        [rewrite Hb in Hin|rewrite Ha in Hin]; by apply elem_of_nil in Hin.
Qed.

Lemma levels_no_ledger pair offset side l loc s :
  _offsets s !! pair = None →
  for_acc l (book_level pair offset side) loc s =
    match l with
    | [] => (inr loc, s, [])
    | _ :: _ => (inl KeyError, s, [])
    end.
Proof.
  intros Hno. destruct l as [|d l]; [done|].
  simpl. apply bind_exn. unfold book_level, offsets_at. py_unfold. by rewrite Hno.
Qed.

(** C10 (as the code has it): without a ledger for the symbol, an update
    that carries at least one level raises [KeyError] at its first level,
    before any change of state and without any event; an update with no
    level at all returns normally, also without change or event.  With
    ledger and book present the handler returns normally. *)
Theorem dydx_update_needs_snapshot s msg ts pair offset bids asks :
  msg_type msg = "channel_data" →
  exchange_channel_to_std (msg_channel msg) = L2_BOOK →
  exchange_symbol_to_std_symbol (msg_id msg) = pair →
  msg_contents msg = Update offset bids asks →
  let r := message_handler msg ts s in
  (_offsets s !! pair = None →
     (bids ++ asks ≠ [] → r = (inl KeyError, s, [])) ∧
     (bids ++ asks = [] → r = (inr tt, s, []))) ∧
  (∀ L B, _offsets s !! pair = Some L → _l2_book s !! pair = Some B →
          outcome r = inr tt).
Proof.
  intros Hty Hch Hp Hc r. subst r.
  rewrite (handler_book msg ts (or_introl Hty) Hch). split.
  - intros Hno. unfold _book. rewrite Hty, Hc, Hp. rewrite decide_True by done.
    destruct bids as [|b bids].
    + rewrite (bind_ok _ _ _ _ _ _ (levels_no_ledger pair offset BID [] _ s Hno)).
      destruct asks as [|a asks].
      * split; [done|]. intros _.
        by rewrite (bind_ok _ _ _ _ _ _ (levels_no_ledger pair offset ASK [] _ s Hno)).
      * split; [|done]. intros _.
        by rewrite (bind_exn _ _ _ _ _ _ (levels_no_ledger pair offset ASK (a :: asks) _ s Hno)).
    + split; [|done]. intros _.
      by rewrite (bind_exn _ _ _ _ _ _ (levels_no_ledger pair offset BID (b :: bids) _ s Hno)).
  - intros L B HL HB.
    by rewrite (book_update_run s msg ts pair L B offset bids asks Hty Hc Hp HL HB).
Qed.

End dYdX_batches.

(** ** dYdX: the ledger only grows between snapshots *)

Section preserved_relations.
Context {S E : Type} (R : relation S) `{!PreOrder R}.

Lemma preserves_same {A} (m : Py S E A) :
  (∀ s, (m s).1.2 = s) → preserves R m.
Proof. intros Hm s. by rewrite Hm. Qed.

Lemma preserves_bind {A B} (m : Py S E A) (k : A → Py S E B) :
  preserves R m → (∀ a, preserves R (k a)) → preserves R (bind m k).
Proof.
  intros Hm Hk s. unfold bind. specialize (Hm s).
  destruct (m s) as [[[e|a] s1] out1]; [done|].
  specialize (Hk a s1). destruct (k a s1) as [[r s2] out2]. simpl in *.
  by trans s1.
Qed.

Lemma preserves_for_acc {A B} (body : B → A → Py S E B) (l : list A) :
  (∀ b x, preserves R (body b x)) → ∀ b, preserves R (for_acc l body b).
Proof.
  intros Hbody. induction l as [|x l IH]; intros b.
  - by apply preserves_same.
  - simpl. by apply preserves_bind.
Qed.

End preserved_relations.

Section dYdX_ledger.
Import dYdX.
Context {feed : Feed}.

Lemma ledger_le_preorder : PreOrder ledger_le.
Proof.
  split.
  - intros s pair price t Ht. exists t. split; [done|lia].
  - intros s1 s2 s3 H12 H23 pair price t Ht.
    destruct (H12 _ _ _ Ht) as (t2 & Ht2 & Hle2).
    destruct (H23 _ _ _ Ht2) as (t3 & Ht3 & Hle3).
    exists t3. split; [done|lia].
Qed.

#[local] Existing Instance ledger_le_preorder.

Lemma ledger_le_same_offsets s s' : _offsets s' = _offsets s → ledger_le s s'.
Proof.
  intros Heq pair price t Ht. exists t. unfold token in *. rewrite Heq.
  split; [done|lia].
Qed.

Lemma ledger_le_record s s' pair L price offset :
  _offsets s !! pair = Some L →
  stale L price offset = false →
  _offsets s' = <[pair := <[price := offset]> L]> (_offsets s) →
  ledger_le s s'.
Proof.
  intros HL Hst Heq pair' price' t Ht. unfold token in *. rewrite Heq.
  destruct (decide (pair = pair')) as [<-|Hp].
  - rewrite lookup_insert_eq. rewrite HL in Ht. simpl in *.
    destruct (decide (price = price')) as [<-|Hpr].
    + rewrite lookup_insert_eq. exists offset. split; [done|].
      unfold stale in Hst. rewrite Ht in Hst. apply bool_decide_eq_false in Hst. lia.
    + rewrite lookup_insert_ne by done. exists t. split; [done|lia].
  - rewrite lookup_insert_ne by done. exists t. split; [done|lia].
Qed.

Lemma book_level_offsets pair offset side loc data s :
  let s' := final (book_level pair offset side loc data s) in
  _offsets s' = _offsets s ∨
  ∃ L, _offsets s !! pair = Some L ∧ stale L data.1 offset = false ∧
       _offsets s' = <[pair := <[data.1 := offset]> L]> (_offsets s).
Proof.
  destruct data as [price amount], s as [bk off].
  unfold final, book_level, offsets_at, store_offset, offsets_at, set_offsets, book_at,
    del_level, store_level, set_book, book_at.
  py_unfold.
  destruct (off !! pair) as [L|] eqn:HL; simpl; [|by left].
  destruct (stale L price offset) eqn:Hst; simpl; [by left|].
  rewrite HL. simpl. right. exists L. split_and!; [done..|].
  destruct (decide (amount = 0%Qc)); simpl;
    destruct (bk !! pair) as [B|] eqn:HB; simpl; try done.
  destruct (decide (is_Some (book_side side B !! price))) as [[v Hv]|]; simpl; [|done].
  rewrite HB. simpl. by rewrite Hv.
Qed.

Lemma book_level_ledger_le pair offset side loc data :
  preserves ledger_le (book_level pair offset side loc data).
Proof.
  intros s.
  destruct (book_level_offsets pair offset side loc data s) as [Heq|(L & HL & Hst & Heq)].
  - by apply ledger_le_same_offsets.
  - by eapply ledger_le_record.
Qed.

Lemma trade_state msg ts s : final (_trade msg ts s) = s.
Proof.
  unfold _trade. destruct (msg_contents msg); try done.
  by rewrite for_map_emit.
Qed.

Lemma handler_ledger_le msg ts :
  ¬ is_book_snapshot msg → preserves ledger_le (message_handler msg ts).
Proof.
  intros Hns. unfold message_handler.
  destruct (decide (msg_type msg = "channel_data" ∨ msg_type msg = "subscribed")) as [Hty|_].
  - destruct (decide (exchange_channel_to_std (msg_channel msg) = L2_BOOK)) as [Hch|_].
    + assert (msg_type msg = "channel_data") as Hcd.
      { destruct Hty as [?|Hsub]; [done|]. destruct Hns. by split. }
      unfold _book. rewrite decide_True by done.
      destruct (msg_contents msg) as [offset bids asks| |];
        try by apply (preserves_same ledger_le).
      apply (preserves_bind ledger_le).
      { apply (preserves_for_acc ledger_le). intros. apply book_level_ledger_le. }
      intros loc1. apply (preserves_bind ledger_le).
      { apply (preserves_for_acc ledger_le). intros. apply book_level_ledger_le. }
      intros [[] dl]; cbn [fst snd]; apply (preserves_same ledger_le); intros s; [|done].
      unfold book_at. py_unfold. by destruct (_l2_book s !! _).
    + case_decide; [|by apply (preserves_same ledger_le)].
      apply (preserves_same ledger_le). intros s. apply trade_state.
  - case_decide; by apply (preserves_same ledger_le).
Qed.

(** C6: over any sequence of handled messages that contains no
    order-book snapshot, whether the handler returns or raises, a token
    recorded for a price is only ever replaced by a token that is at
    least as large. *)
Theorem dydx_ledger_monotone s s' :
  rtc update_step s s' → ledger_le s s'.
Proof.
  induction 1 as [s|s1 s2 s3 (msg & ts & Hns & ->) _ IH]; [done|].
  etrans; [|exact IH]. by apply handler_ledger_le.
Qed.

End dYdX_ledger.

(** ** dYdX: the statements at concrete messages *)

Section dYdX_instances.
Import dYdX.

Lemma dydx_empty_delta_suppression_witness :
  message_handler (feed := Demo.dydx_feed) Demo.update_stale 0%float Demo.state_A
    = (inr tt, Demo.state_A, []).
Proof.
  refine (proj1 (dydx_empty_delta_suppression (feed := Demo.dydx_feed)
                   Demo.state_A Demo.update_stale 0%float "BTC-USD"
                   Demo.ledger_A Demo.book_A 4 [(Demo.dec 100, Demo.dec 1)] []
                   _ _ _ _ _ _) _).
  1-6: vm_compute; reflexivity.
  repeat constructor.
Defined.

Lemma dydx_zero_size_removal_witness :
  ∃ B', book_level "BTC-USD" 6 BID (false, mkDelta [] []) (Demo.dec 100, 0%Qc) Demo.state_A
          = (inr (true, mkDelta [(Demo.dec 100, 0%Qc)] []),
             put_pair "BTC-USD" B' (<[Demo.dec 100 := 6]> Demo.ledger_A) Demo.state_A, []) ∧
        book_side BID B' !! Demo.dec 100 = None.
Proof.
  assert (accepts Demo.ledger_A (Demo.dec 100) 6) as Hacc.
  { right. exists 5. split; [vm_compute; reflexivity|lia]. }
  destruct (proj1 (dydx_zero_size_removal (feed := Demo.dydx_feed) Demo.state_A "BTC-USD" Demo.ledger_A Demo.book_A
                     ltac:(vm_compute; reflexivity) ltac:(vm_compute; reflexivity))
              6 BID (false, mkDelta [] []) (Demo.dec 100) Hacc)
    as (B' & Hr & Hnone & _).
  exists B'. split; assumption.
Defined.

Lemma dydx_update_needs_snapshot_witness :
  message_handler (feed := Demo.dydx_feed) Demo.update_fresh 0%float Demo.state_empty
    = (inl KeyError, Demo.state_empty, []).
Proof.
  refine (proj1 (proj1 (dydx_update_needs_snapshot (feed := Demo.dydx_feed)
                   Demo.state_empty Demo.update_fresh 0%float "BTC-USD"
                   6 [(Demo.dec 100, Demo.dec 1)] [] _ _ _ _) _) _).
  1-5: vm_compute; reflexivity.
  discriminate.
Defined.

Lemma dydx_ledger_monotone_witness :
  ledger_le Demo.state_A
    (final (message_handler (feed := Demo.dydx_feed) Demo.update_fresh 0%float Demo.state_A)).
Proof.
  apply (dydx_ledger_monotone (feed := Demo.dydx_feed)).
  apply rtc_once. exists Demo.update_fresh, 0%float. split; [|reflexivity].
  intros [Hty _]. vm_compute in Hty. discriminate.
Defined.

(** C5, counterexample: price 99 is on neither side of the book, the
    update sets it to size 0, and the emitted delta lists (99, 0). *)
Lemma dydx_zero_size_absent_counterexample :
  bids Demo.book_A !! Demo.dec 99 = None ∧
  asks Demo.book_A !! Demo.dec 99 = None ∧
  effects (message_handler (feed := Demo.dydx_feed) Demo.update_zero 0%float Demo.state_A)
    = [BookCallback L2_BOOK Demo.book_A 0%float None
         (Some (mkDelta [(Demo.dec 99, Demo.dec 0)] [])) Demo.update_zero] ∧
  delta_mentions
    (effects (message_handler (feed := Demo.dydx_feed) Demo.update_zero 0%float Demo.state_A))
    (Demo.dec 99).
Proof.
  assert (effects (message_handler (feed := Demo.dydx_feed) Demo.update_zero 0%float Demo.state_A)
    = [BookCallback L2_BOOK Demo.book_A 0%float None
         (Some (mkDelta [(Demo.dec 99, Demo.dec 0)] [])) Demo.update_zero]) as Heff
    by (vm_compute; reflexivity).
  split_and!; [vm_compute; reflexivity..|exact Heff|].
  rewrite Heff. unfold delta_mentions.
  eexists _, _, _, _, _, _, (Demo.dec 0). split; [apply list_elem_of_here|].
  left. apply list_elem_of_here.
Qed.

(** C10, counterexample: right after a subscribe there is no ledger for
    the symbol, yet an update without levels is handled without error. *)
Lemma dydx_update_without_snapshot_counterexample :
  _offsets (final (subscribe (feed := Demo.dydx_feed) Demo.state_A)) !! "BTC-USD" = None ∧
  message_handler (feed := Demo.dydx_feed) Demo.update_empty 0%float
      (final (subscribe (feed := Demo.dydx_feed) Demo.state_A))
    = (inr tt, Demo.state_empty, []).
Proof. split; vm_compute; reflexivity. Qed.

End dYdX_instances.

(** ** dYdX: snapshots *)

Section dYdX_snapshots.
Import dYdX.
Context {feed : Feed}.

Lemma install_entry_lookup B se sd p :
  book_side sd (install_entry B se) !! p =
    if decide ((0 < e_size se.2)%Qc ∧ se.1 = sd ∧ e_price se.2 = p)
    then Some (e_size se.2) else book_side sd B !! p.
Proof.
  unfold install_entry. destruct (decide (0 < e_size se.2)%Qc) as [Hpos|Hneg].
  - destruct (decide (se.1 = sd)) as [<-|Hsd].
    + rewrite book_side_set. destruct (decide (e_price se.2 = p)) as [<-|Hp].
      * rewrite lookup_insert_eq. by rewrite decide_True.
      * rewrite lookup_insert_ne by done. rewrite decide_False; [done|]. by intros (_ & _ & ?).
    + rewrite book_side_set_ne by done. rewrite decide_False; [done|]. by intros (_ & ? & _).
  - rewrite decide_False; [done|]. by intros (? & _ & _).
Qed.

Lemma install_lookup l : ∀ B sd p sz,
  book_side sd (foldl install_entry B l) !! p = Some sz →
  book_side sd B !! p = Some sz ∨
  ((0 < sz)%Qc ∧ ∃ e, (sd, e) ∈ l ∧ e_price e = p ∧ e_size e = sz).
Proof.
  induction l as [|[sd0 e0] l IH]; intros B sd p sz Hlk; [by left|].
  simpl in Hlk. apply IH in Hlk as [Hlk|(Hpos & e & Hin & Hp & Hsz)].
  - rewrite install_entry_lookup in Hlk. simpl in Hlk. case_decide as Hd; [|by left].
    destruct Hd as (Hpos & -> & <-). injection Hlk as <-. right. split; [done|].
    exists e0. split_and!; [apply list_elem_of_here|done..].
  - right. split; [done|]. exists e. split_and!; [by apply list_elem_of_further|done..].
Qed.

Lemma install_other l : ∀ B sd p,
  p ∉ snapshot_prices l →
  book_side sd (foldl install_entry B l) !! p = book_side sd B !! p.
Proof.
  induction l as [|se l IH]; intros B sd p Hp; [done|].
  apply not_elem_of_cons in Hp as [Hne Hp]. simpl.
  rewrite IH by done. rewrite install_entry_lookup.
  rewrite decide_False; [done|]. by intros (_ & _ & ?).
Qed.

Lemma install_mono l : ∀ B sd p,
  is_Some (book_side sd B !! p) → is_Some (book_side sd (foldl install_entry B l) !! p).
Proof.
  induction l as [|se l IH]; intros B sd p HB; [done|].
  simpl. apply IH. rewrite install_entry_lookup. by case_decide.
Qed.

Lemma install_present l : ∀ B sd e,
  (sd, e) ∈ l → (0 < e_size e)%Qc →
  is_Some (book_side sd (foldl install_entry B l) !! e_price e).
Proof.
  induction l as [|se l IH]; intros B sd e Hin Hpos; [by apply elem_of_nil in Hin|].
  apply elem_of_cons in Hin as [<-|Hin]; simpl; [|by apply IH].
  apply install_mono. rewrite install_entry_lookup. by rewrite decide_True.
Qed.

Lemma install_exact l : ∀ B sd e,
  NoDup (snapshot_prices l) → (sd, e) ∈ l → (0 < e_size e)%Qc →
  book_side sd (foldl install_entry B l) !! e_price e = Some (e_size e).
Proof.
  induction l as [|se l IH]; intros B sd e Hnd Hin Hpos; [by apply elem_of_nil in Hin|].
  apply NoDup_cons in Hnd as [Hfresh Hnd].
  apply elem_of_cons in Hin as [<-|Hin]; simpl; [|by apply IH].
  rewrite install_other by done. rewrite install_entry_lookup. by rewrite decide_True.
Qed.

Lemma seed_lookup l : ∀ L p t,
  foldl seed_entry L l !! p = Some t →
  L !! p = Some t ∨ ∃ sd e, (sd, e) ∈ l ∧ e_price e = p ∧ e_offset e = t.
Proof.
  induction l as [|[sd0 e0] l IH]; intros L p t Hlk; [by left|].
  simpl in Hlk. apply IH in Hlk as [Hlk|(sd & e & Hin & Hp & Ht)].
  - unfold seed_entry in Hlk. simpl in Hlk.
    destruct (decide (e_price e0 = p)) as [<-|Hne].
    + rewrite lookup_insert_eq in Hlk. injection Hlk as <-. right.
      exists sd0, e0. split_and!; [apply list_elem_of_here|done..].
    + rewrite lookup_insert_ne in Hlk by done. by left.
  - right. exists sd, e. split_and!; [by apply list_elem_of_further|done..].
Qed.

Lemma seed_other l : ∀ L p,
  p ∉ snapshot_prices l → foldl seed_entry L l !! p = L !! p.
Proof.
  induction l as [|se l IH]; intros L p Hp; [done|].
  apply not_elem_of_cons in Hp as [Hne Hp]. simpl.
  rewrite IH by done. unfold seed_entry. by rewrite lookup_insert_ne.
Qed.

Lemma seed_mono l : ∀ L p,
  is_Some (L !! p) → is_Some (foldl seed_entry L l !! p).
Proof.
  induction l as [|se l IH]; intros L p HL; [done|].
  simpl. apply IH. unfold seed_entry. rewrite lookup_insert. by case_decide.
Qed.

Lemma seed_present l : ∀ L sd e,
  (sd, e) ∈ l → is_Some (foldl seed_entry L l !! e_price e).
Proof.
  induction l as [|se l IH]; intros L sd e Hin; [by apply elem_of_nil in Hin|].
  apply elem_of_cons in Hin as [<-|Hin]; simpl; [|by eapply IH].
  apply seed_mono. unfold seed_entry. simpl. by rewrite lookup_insert_eq.
Qed.

Lemma seed_exact l : ∀ L sd e,
  NoDup (snapshot_prices l) → (sd, e) ∈ l →
  foldl seed_entry L l !! e_price e = Some (e_offset e).
Proof.
  induction l as [|se l IH]; intros L sd e Hnd Hin; [by apply elem_of_nil in Hin|].
  apply NoDup_cons in Hnd as [Hfresh Hnd].
  apply elem_of_cons in Hin as [<-|Hin]; simpl; [|by eapply IH].
  rewrite seed_other by done. unfold seed_entry. simpl. by rewrite lookup_insert_eq.
Qed.

Lemma snapshot_handled s msg ts pair sides :
  msg_type msg = "subscribed" →
  exchange_channel_to_std (msg_channel msg) = L2_BOOK →
  exchange_symbol_to_std_symbol (msg_id msg) = pair →
  msg_contents msg = Snapshot sides →
  message_handler msg ts s =
    (inr tt,
     put_pair pair (snapshot_book pair sides) (snapshot_ledger sides) s,
     [BookCallback L2_BOOK (snapshot_book pair sides) ts None None msg]).
Proof.
  intros Hty Hch Hp Hc. rewrite (handler_book msg ts (or_intror Hty) Hch).
  apply book_snapshot_run; [|done..]. by rewrite Hty.
Qed.

(** C2: a snapshot message returns normally, replaces the book and the
    ledger of its symbol by ones built from the message alone, leaves the
    other symbols as they are, and emits one book callback, carrying the
    new book and no delta.  Every level of the new book has a size above
    0 and is a level of the snapshot, and every snapshot level with a
    size above 0 is in it; every ledger entry is the token of a snapshot
    level and every snapshot level has one.  When the prices of the
    snapshot are pairwise distinct, each level's own size and token are
    the ones installed. *)
Theorem dydx_snapshot_replaces s msg ts pair sides :
  msg_type msg = "subscribed" →
  exchange_channel_to_std (msg_channel msg) = L2_BOOK →
  exchange_symbol_to_std_symbol (msg_id msg) = pair →
  msg_contents msg = Snapshot sides →
  let B' := snapshot_book pair sides in
  let L' := snapshot_ledger sides in
  message_handler msg ts s =
    (inr tt,
     mkState (<[pair := B']> (_l2_book s)) (<[pair := L']> (_offsets s)),
     [BookCallback L2_BOOK B' ts None None msg]) ∧
  (∀ sd p sz, book_side sd B' !! p = Some sz →
     (0 < sz)%Qc ∧ ∃ e, (sd, e) ∈ snapshot_entries sides ∧ e_price e = p ∧ e_size e = sz) ∧
  (∀ sd e, (sd, e) ∈ snapshot_entries sides → (0 < e_size e)%Qc →
     is_Some (book_side sd B' !! e_price e)) ∧
  (∀ p t, L' !! p = Some t →
     ∃ sd e, (sd, e) ∈ snapshot_entries sides ∧ e_price e = p ∧ e_offset e = t) ∧
  (∀ sd e, (sd, e) ∈ snapshot_entries sides → is_Some (L' !! e_price e)) ∧
  (NoDup (snapshot_prices (snapshot_entries sides)) →
     ∀ sd e, (sd, e) ∈ snapshot_entries sides →
       L' !! e_price e = Some (e_offset e) ∧
       ((0 < e_size e)%Qc → book_side sd B' !! e_price e = Some (e_size e))).
Proof.
  intros Hty Hch Hp Hc B' L'. split_and!.
  - by apply snapshot_handled.
  - intros sd p sz Hlk. apply install_lookup in Hlk as [Hlk|?]; [|done].
    by destruct sd.
  - intros sd e Hin Hpos. by apply install_present.
  - intros p t Hlk. by apply seed_lookup in Hlk as [Hlk|?].
  - intros sd e Hin. by eapply seed_present.
  - intros Hnd sd e Hin. split.
    + by eapply seed_exact.
    + intros Hpos. by apply install_exact.
Qed.

(** C9: after a snapshot the ledger has an entry for every level of the
    message, whatever its size, and for every price of the book; a price
    whose snapshot levels all have a size of 0 or below is in the ledger
    and on neither side of the book; and an update whose token is below
    the token recorded for such a price is discarded for that price: it
    stays out of the book, keeps its token, and no emitted delta
    mentions it. *)
Theorem dydx_ledger_covers_snapshot s msg ts pair sides :
  msg_type msg = "subscribed" →
  exchange_channel_to_std (msg_channel msg) = L2_BOOK →
  exchange_symbol_to_std_symbol (msg_id msg) = pair →
  msg_contents msg = Snapshot sides →
  let s1 := final (message_handler msg ts s) in
  ∃ B1 L1,
    _l2_book s1 !! pair = Some B1 ∧ _offsets s1 !! pair = Some L1 ∧
    (∀ sd e, (sd, e) ∈ snapshot_entries sides → is_Some (L1 !! e_price e)) ∧
    (∀ sd p, is_Some (book_side sd B1 !! p) → is_Some (L1 !! p)) ∧
    (∀ sd e, (sd, e) ∈ snapshot_entries sides →
       (∀ sd' e', (sd', e') ∈ snapshot_entries sides →
                  e_price e' = e_price e → ¬ (0 < e_size e')%Qc) →
       is_Some (L1 !! e_price e) ∧ ∀ sd', book_side sd' B1 !! e_price e = None) ∧
    (∀ msg' ts' offset bids asks price recorded,
       msg_type msg' = "channel_data" →
       exchange_channel_to_std (msg_channel msg') = L2_BOOK →
       exchange_symbol_to_std_symbol (msg_id msg') = pair →
       msg_contents msg' = Update offset bids asks →
       (∀ sd, book_side sd B1 !! price = None) →
       L1 !! price = Some recorded → offset < recorded →
       let r := message_handler msg' ts' s1 in
       ∃ B2, outcome r = inr tt ∧
             _l2_book (final r) !! pair = Some B2 ∧
             (∀ sd, book_side sd B2 !! price = None) ∧
             token (final r) pair price = Some recorded ∧
             ¬ delta_mentions (effects r) price).
Proof.
  intros Hty Hch Hp Hc s1. subst s1.
  rewrite (snapshot_handled s msg ts pair sides Hty Hch Hp Hc).
  unfold final. simpl.
  exists (snapshot_book pair sides), (snapshot_ledger sides).
  assert (∀ sd p sz, book_side sd (snapshot_book pair sides) !! p = Some sz →
            (0 < sz)%Qc ∧ ∃ e, (sd, e) ∈ snapshot_entries sides ∧ e_price e = p ∧ e_size e = sz)
    as Hbook.
  { intros sd p sz Hlk. apply install_lookup in Hlk as [Hlk|?]; [|done]. by destruct sd. }
  split_and!.
  - apply lookup_insert_eq.
  - apply lookup_insert_eq.
  - intros sd e Hin. by eapply seed_present.
  - intros sd p [sz Hsz]. apply Hbook in Hsz as (_ & e & Hin & <- & _).
    by eapply seed_present.
  - intros sd e Hin Hzero. split; [by eapply seed_present|].
    intros sd'. apply eq_None_not_Some. intros [sz Hsz].
    apply Hbook in Hsz as (Hpos & e' & Hin' & Hp' & <-). by eapply Hzero.
  - intros msg' ts' offset bids asks price recorded Hty' Hch' Hp' Hc' Habs Hrec Hlt.
    destruct (update_stale_price
                (put_pair pair (snapshot_book pair sides) (snapshot_ledger sides) s)
                pair (snapshot_ledger sides) (snapshot_book pair sides)
                msg' ts' offset bids asks price recorded
                (lookup_insert_eq _ _ _) (lookup_insert_eq _ _ _)
                Hty' Hch' Hp' Hc' Hrec Hlt)
      as (B2 & Hout & HB2 & Hsame & Htok & Hdel).
    exists B2. split_and!; try done.
    intros sd. by rewrite Hsame.
Qed.

End dYdX_snapshots.

Section dYdX_snapshot_instances.
Import dYdX.

Lemma dydx_snapshot_replaces_witness :
  message_handler (feed := Demo.dydx_feed) Demo.snapshot_A 0%float Demo.state_empty =
    (inr tt, Demo.state_A, [BookCallback L2_BOOK Demo.book_A 0%float None None Demo.snapshot_A]).
Proof.
  refine (eq_trans (proj1 (dydx_snapshot_replaces (feed := Demo.dydx_feed)
                     Demo.state_empty Demo.snapshot_A 0%float "BTC-USD"
                     [("bids", [mkEntry (Demo.dec 100) (Demo.dec 2) 5]);
                      ("asks", [mkEntry (Demo.dec 101) (Demo.dec 3) 5])] _ _ _ _)) _).
  all: vm_compute; reflexivity.
Defined.

Lemma dydx_ledger_covers_snapshot_witness :
  ∃ B1 L1,
    _l2_book (final (message_handler (feed := Demo.dydx_feed) Demo.snapshot_zero 0%float
                       Demo.state_empty)) !! "BTC-USD" = Some B1 ∧
    _offsets (final (message_handler (feed := Demo.dydx_feed) Demo.snapshot_zero 0%float
                       Demo.state_empty)) !! "BTC-USD" = Some L1 ∧
    L1 !! Demo.dec 99 = Some 7 ∧
    (∀ sd, book_side sd B1 !! Demo.dec 99 = None).
Proof.
  destruct (dydx_ledger_covers_snapshot (feed := Demo.dydx_feed)
              Demo.state_empty Demo.snapshot_zero 0%float "BTC-USD"
              [("bids", [mkEntry (Demo.dec 100) (Demo.dec 2) 5;
                         mkEntry (Demo.dec 99) (Demo.dec 0) 7]);
               ("asks", [mkEntry (Demo.dec 101) (Demo.dec 3) 5])]
              ltac:(vm_compute; reflexivity) ltac:(vm_compute; reflexivity)
              ltac:(vm_compute; reflexivity) ltac:(vm_compute; reflexivity))
    as (B1 & L1 & HB1 & HL1 & _ & _ & _ & _).
  exists B1, L1. split_and!; [exact HB1|exact HL1| |].
  - vm_compute in HL1. injection HL1 as <-. vm_compute. reflexivity.
  - vm_compute in HB1. injection HB1 as <-. intros []; vm_compute; reflexivity.
Defined.

End dYdX_snapshot_instances.

(** ** Trades *)

Section trade_facts.
Context {feed : Feed}.

Lemma upbit_timestamp_run ts f (s : Upbit.State) :
  Upbit.to_float ts = Some f →
  Upbit.timestamp_normalize ts s = (inr (PrimFloat.div f 1000%float), s, []).
Proof. intros Hf. unfold Upbit.timestamp_normalize, Upbit.float_of_int. by rewrite Hf. Qed.

(** C7: a dYdX trade message with N records returns normally, leaves the
    state alone and calls the trade callback N times, the i-th call with
    the trade made from the i-th record; an Upbit trade message is one
    record and yields one call.  The side is BUY for the exchange's
    word for a buy ("BUY", resp. "BID") and SELL otherwise, amount and
    price are the record's decimals, and the timestamp is the normalized
    one: for Upbit the millisecond stamp divided by 1000.0. *)
Theorem trades_one_event_per_record :
  (∀ (s : dYdX.State) msg ts trades,
     dYdX.msg_type msg = "channel_data" ∨ dYdX.msg_type msg = "subscribed" →
     exchange_channel_to_std (dYdX.msg_channel msg) = TRADES →
     dYdX.msg_contents msg = dYdX.TradeList trades →
     let r := dYdX.message_handler msg ts s in
     outcome r = inr tt ∧ final r = s ∧
     length (effects r) = length trades ∧
     ∀ i trade, trades !! i = Some trade →
       ∃ t, effects r !! i = Some (Callback TRADES t ts) ∧
            t_exchange t = dYdX.id ∧
            t_symbol t = exchange_symbol_to_std_symbol (dYdX.msg_id msg) ∧
            t_side t = (if decide (dYdX.tr_side trade = "BUY") then BUY else SELL) ∧
            t_amount t = dYdX.tr_size trade ∧
            t_price t = dYdX.tr_price trade ∧
            t_timestamp t = feed_timestamp_normalize (dYdX.tr_createdAt trade) ∧
            t_raw t = trade) ∧
  (∀ (s : Upbit.State) msg ts tp tv ttms ab sid f,
     Upbit.msg_ty msg = "trade" →
     Upbit.msg_payload msg = Upbit.TradePayload tp tv ttms ab sid →
     Upbit.to_float ttms = Some f →
     Upbit.message_handler msg ts s =
       (inr tt, s,
        [Callback TRADES
           (mkTrade Upbit.id (exchange_symbol_to_std_symbol (Upbit.msg_cd msg))
              (if decide (ab = "BID") then BUY else SELL)
              tv tp (PrimFloat.div f 1000%float) (Some (pretty sid)) msg)
           ts])).
Proof.
  split.
  - intros s msg ts trades Hty Hch Hc r. subst r.
    rewrite (handler_trade msg ts Hty Hch). unfold dYdX._trade. rewrite Hc.
    rewrite for_map_emit. unfold outcome, final, effects. simpl.
    split_and!; [done..|by rewrite length_fmap|].
    intros i trade Hi. eexists. rewrite list_lookup_fmap, Hi. by split_and!.
  - intros s msg ts tp tv ttms ab sid f Hty Hpl Hf.
    unfold Upbit.message_handler. rewrite decide_True by done.
    unfold Upbit._trade. rewrite Hpl.
    by rewrite (bind_ok _ _ _ _ _ _ (upbit_timestamp_run ttms f s Hf)).
Qed.

End trade_facts.

Lemma trades_one_event_per_record_witness :
  length (effects (dYdX.message_handler (feed := Demo.dydx_feed) Demo.dydx_trades 0%float
                     Demo.state_A)) = 2%nat ∧
  Upbit.message_handler (feed := Demo.upbit_feed) Demo.upbit_trade 0%float Demo.upbit_state =
    (inr tt, Demo.upbit_state,
     [Callback TRADES
        (mkTrade "UPBIT" "KRW-BTC" BUY (Demo.dec 3) (Demo.dec 6759000) 1584257228%float
           (Some "1584257228000000") Demo.upbit_trade)
        0%float]).
Proof.
  split.
  - refine (proj1 (proj2 (proj2 (proj1 (trades_one_event_per_record (feed := Demo.dydx_feed))
              Demo.state_A Demo.dydx_trades 0%float
              [dYdX.mkTradeRecord "BUY" (Demo.dec 384) (Demo.dec 17) "2021-06-23T20:28:25.465Z";
               dYdX.mkTradeRecord "SELL" (Demo.dec 384) (Demo.dec 18) "2021-06-23T20:22:26.466Z"]
              _ _ _)))).
    + right. reflexivity.
    + vm_compute. reflexivity.
    + reflexivity.
  - refine (proj2 (trades_one_event_per_record (feed := Demo.upbit_feed))
              Demo.upbit_state Demo.upbit_trade 0%float
              (Demo.dec 6759000) (Demo.dec 3) 1584257228000 "BID" 1584257228000000
              1584257228000%float _ _ _).
    all: vm_compute; reflexivity.
Defined.

(** ** Subscribing *)

Section subscribe_facts.
Context {feed : Feed}.

Lemma for_effects {S E A} (body : A → Py S E unit) (f : A → list E) (l : list A) :
  (∀ x s, body x s = (inr tt, s, f x)) →
  ∀ s, for_ l body s = (inr tt, s, l ≫= f).
Proof.
  intros Hbody. induction l as [|x l IH]; intros s; [done|].
  simpl. rewrite (bind_ok _ _ _ _ _ _ (Hbody x s)). by rewrite IH.
Qed.

(** C8 (as the code has it): the dYdX subscribe returns normally with
    both per-symbol maps empty, whatever they held, and writes one
    subscribe message per channel and symbol; resetting or subscribing
    twice leaves the state of doing it once.  The Upbit subscribe has no
    reset: it returns normally and leaves the adapter's books as they
    are. *)
Theorem subscribe_resets :
  (∀ s : dYdX.State,
     dYdX.subscribe s =
       (inr tt, dYdX.mkState ∅ ∅,
        subscription ≫= (λ cs, (λ symbol, ConnWrite (dYdX.subscribe_msg cs.1 symbol)) <$> cs.2)) ∧
     final (dYdX.__reset (final (dYdX.__reset s)))
       = final (dYdX.__reset s) ∧
     final (dYdX.subscribe (final (dYdX.subscribe s))) = final (dYdX.subscribe s)) ∧
  (∀ (s : Upbit.State) ticket,
     outcome (Upbit.subscribe ticket s) = inr tt ∧
     final (Upbit.subscribe ticket s) = s).
Proof.
  assert (∀ s : dYdX.State,
     dYdX.subscribe s =
       (inr tt, dYdX.mkState ∅ ∅,
        subscription ≫= (λ cs, (λ symbol, ConnWrite (dYdX.subscribe_msg cs.1 symbol)) <$> cs.2)))
    as Hsub.
  { intros s. unfold dYdX.subscribe, dYdX.__reset. unfold bind at 1. unfold modify at 1.
    rewrite (for_effects _ (λ cs, (λ symbol, ConnWrite (dYdX.subscribe_msg cs.1 symbol)) <$> cs.2));
      [done|].
    intros cs s'. apply for_map_emit. }
  split.
  - intros s. split_and!; [done|done|]. by rewrite !Hsub.
  - done.
Qed.

End subscribe_facts.

(** C8, counterexample: an Upbit adapter that holds a book for KRW-BTC
    still holds it after subscribe. *)
Lemma upbit_subscribe_keeps_book_counterexample :
  Upbit._l2_book Demo.upbit_state !! "KRW-BTC" ≠ None ∧
  Upbit._l2_book (final (Upbit.subscribe (feed := Demo.upbit_feed) "ticket" Demo.upbit_state))
    !! "KRW-BTC" = Upbit._l2_book Demo.upbit_state !! "KRW-BTC".
Proof. split; [by vm_compute|reflexivity]. Qed.

(** ** Upbit: the order book is replaced by every message *)

Section Upbit_facts.
Import Upbit.
Context {feed : Feed}.

Lemma dict_of_lookup l p v : dict_of l !! p = Some v → (p, v) ∈ l.
Proof.
  unfold dict_of.
  assert (∀ m : Levels, foldl (λ m kv, <[kv.1 := kv.2]> m) m l !! p = Some v →
               m !! p = Some v ∨ (p, v) ∈ l) as Hgen.
  { induction l as [|[k x] l IH]; intros m Hlk; [by left|].
    simpl in Hlk. apply IH in Hlk as [Hlk|Hin].
    - destruct (decide (k = p)) as [->|Hne].
      + rewrite lookup_insert_eq in Hlk. injection Hlk as ->. right. apply list_elem_of_here.
      + rewrite lookup_insert_ne in Hlk by done. by left.
    - right. by apply list_elem_of_further. }
  intros Hlk. by apply Hgen in Hlk as [Hlk|?].
Qed.

Lemma dict_of_present l p v : (p, v) ∈ l → is_Some (dict_of l !! p).
Proof.
  unfold dict_of.
  assert (∀ m : Levels, is_Some (m !! p) ∨ (∃ v, (p, v) ∈ l) →
               is_Some (foldl (λ m kv, <[kv.1 := kv.2]> m) m l !! p)) as Hgen.
  { induction l as [|[k x] l IH]; intros m [Hm|[w Hin]].
    - done.
    - by apply elem_of_nil in Hin.
    - simpl. apply IH. left. rewrite lookup_insert. by case_decide.
    - simpl. apply IH. apply elem_of_cons in Hin as [[= -> ->]|Hin].
      + left. by rewrite lookup_insert_eq.
      + right. by exists w. }
  intros Hin. apply Hgen. right. by exists v.
Qed.

Lemma upbit_book_run s msg ts obu f :
  msg_payload msg = OrderbookPayload obu →
  to_float (msg_tms msg) = Some f →
  _book msg ts s =
    (inr tt,
     mkState (<[exchange_symbol_to_std_symbol (msg_cd msg) :=
                  replaced_book s (exchange_symbol_to_std_symbol (msg_cd msg)) obu]>
                (_l2_book s)),
     [BookCallback L2_BOOK
        (replaced_book s (exchange_symbol_to_std_symbol (msg_cd msg)) obu)
        ts (Some (PrimFloat.div f 1000%float)) None msg]).
Proof.
  intros Hpl Hf. unfold _book. rewrite Hpl.
  rewrite (bind_ok _ _ _ _ _ _ (upbit_timestamp_run _ f s Hf)).
  set (pair := exchange_symbol_to_std_symbol (msg_cd msg)).
  destruct s as [bk]. unfold replaced_book, book_object, book_at, set_book.
  py_unfold.
  destruct (decide (is_Some (bk !! pair))) as [[ob Hob]|Hno]; simpl.
  - rewrite Hob. simpl.
    rewrite !lookup_insert_eq. simpl. by rewrite !insert_insert_eq.
  - apply eq_None_not_Some in Hno. rewrite Hno. simpl.
    rewrite !lookup_insert_eq. simpl. by rewrite !insert_insert_eq.
Qed.

(** C3 (as the code has it): every order-book message whose timestamp
    converts to a float returns normally, assigns both sides of the
    symbol's book from the message alone and emits one book callback
    with the whole book and no delta.  The bid side holds the bid levels
    of the units whose bid price is above 0, the ask side the ask levels
    of the units whose ask price is above 0; sizes are not tested. *)
Theorem upbit_book_replaces s msg ts obu f :
  msg_ty msg = "orderbook" →
  msg_payload msg = OrderbookPayload obu →
  to_float (msg_tms msg) = Some f →
  let pair := exchange_symbol_to_std_symbol (msg_cd msg) in
  let ob := replaced_book s pair obu in
  message_handler msg ts s =
    (inr tt, mkState (<[pair := ob]> (_l2_book s)),
     [BookCallback L2_BOOK ob ts (Some (PrimFloat.div f 1000%float)) None msg]) ∧
  bids ob = bids_of obu ∧ asks ob = asks_of obu ∧
  (∀ p sz, bids ob !! p = Some sz →
     (0 < p)%Qc ∧ ∃ unit, unit ∈ obu ∧ u_bp unit = p ∧ u_bs unit = sz) ∧
  (∀ p sz, asks ob !! p = Some sz →
     (0 < p)%Qc ∧ ∃ unit, unit ∈ obu ∧ u_ap unit = p ∧ u_as unit = sz) ∧
  (∀ unit, unit ∈ obu → (0 < u_bp unit)%Qc → is_Some (bids ob !! u_bp unit)) ∧
  (∀ unit, unit ∈ obu → (0 < u_ap unit)%Qc → is_Some (asks ob !! u_ap unit)).
Proof.
  intros Hty Hpl Hf pair ob. split_and!; try done.
  - unfold message_handler. rewrite decide_False by (rewrite Hty; done).
    rewrite decide_True by done. by apply upbit_book_run.
  - intros p sz Hlk. apply dict_of_lookup in Hlk.
    apply list_elem_of_fmap in Hlk as (unit & [= -> ->] & Hin).
    apply list_elem_of_filter in Hin as [Hpos Hin]. split; [done|]. by exists unit.
  - intros p sz Hlk. apply dict_of_lookup in Hlk.
    apply list_elem_of_fmap in Hlk as (unit & [= -> ->] & Hin).
    apply list_elem_of_filter in Hin as [Hpos Hin]. split; [done|]. by exists unit.
  - intros unit Hin Hpos. apply (dict_of_present _ _ (u_bs unit)).
    apply list_elem_of_fmap. exists unit. split; [done|]. by apply list_elem_of_filter.
  - intros unit Hin Hpos. apply (dict_of_present _ _ (u_as unit)).
    apply list_elem_of_fmap. exists unit. split; [done|]. by apply list_elem_of_filter.
Qed.

End Upbit_facts.

Lemma upbit_book_replaces_witness :
  bids (Upbit.replaced_book (feed := Demo.upbit_feed) Demo.upbit_state "KRW-BTC"
          [Upbit.mkUnit (Demo.dec 6727000) (Demo.dec 1) (Demo.dec 6721000) (Demo.dec 0)])
    = Upbit.bids_of [Upbit.mkUnit (Demo.dec 6727000) (Demo.dec 1) (Demo.dec 6721000) (Demo.dec 0)].
Proof.
  refine (proj1 (proj2 (upbit_book_replaces (feed := Demo.upbit_feed)
            Demo.upbit_state Demo.upbit_orderbook 0%float
            [Upbit.mkUnit (Demo.dec 6727000) (Demo.dec 1) (Demo.dec 6721000) (Demo.dec 0)]
            1584263923870%float _ _ _))).
  all: vm_compute; reflexivity.
Defined.

(** C3, counterexample: the unit's bid has price 6721000 and size 0, and
    the replaced book holds that level with size 0. *)
Lemma upbit_zero_size_installed_counterexample :
  ∃ ob,
    Upbit._l2_book (final (Upbit.message_handler (feed := Demo.upbit_feed)
                             Demo.upbit_orderbook 0%float Demo.upbit_state))
      !! "KRW-BTC" = Some ob ∧
    bids ob !! Demo.dec 6721000 = Some (Demo.dec 0) ∧
    ¬ (0 < Demo.dec 0)%Qc.
Proof.
  eexists. split_and!; [vm_compute; reflexivity|vm_compute; reflexivity|].
  by vm_compute.
Qed.

(** ** The scenarios of the specification *)

Section scenarios.

(** A stale update of bid 100 followed by a fresh one: the level ends at
    size 1 with token 6, and the only event is the one of the second
    message, with delta [(100, 1)] on the bid side. *)
Example scenario_stale_then_fresh :
  let r1 := dYdX.message_handler (feed := Demo.dydx_feed) Demo.update_stale 0%float Demo.state_A in
  let r2 := dYdX.message_handler (feed := Demo.dydx_feed) Demo.update_fresh 0%float (final r1) in
  effects r1 = [] ∧
  (∃ ob, dYdX._l2_book (final r2) !! "BTC-USD" = Some ob ∧
         bids ob !! Demo.dec 100 = Some (Demo.dec 1) ∧
         effects r2 = [BookCallback L2_BOOK ob 0%float None
                         (Some (mkDelta [(Demo.dec 100, Demo.dec 1)] [])) Demo.update_fresh]) ∧
  dYdX.token (final r2) "BTC-USD" (Demo.dec 100) = Some 6.
Proof.
  split_and!; [vm_compute; reflexivity| |vm_compute; reflexivity].
  eexists. split_and!; vm_compute; reflexivity.
Qed.

(** Two units, one with ask price 0: two bids and one ask remain, and the
    event carries no delta. *)
Example scenario_full_replace :
  let r := Upbit.message_handler (feed := Demo.upbit_feed) Demo.upbit_scenario 0%float
             Demo.upbit_state in
  ∃ ob, Upbit._l2_book (final r) !! "KRW-BTC" = Some ob ∧
        size (bids ob) = 2%nat ∧ size (asks ob) = 1%nat ∧
        effects r = [BookCallback L2_BOOK ob 0%float (Some 0x1.79b7cbcf7ae14p+30%float) None
                       Demo.upbit_scenario].
Proof. eexists. split_and!; vm_compute; reflexivity. Qed.

End scenarios.

(** * Further properties of the handlers *)

(** ** dYdX: what an update leaves at a price *)

Section dYdX_final_levels.
Import dYdX dYdXRuns.
Context {feed : Feed}.

Lemma level_book_lookup side sd B d p :
  book_side sd (level_book side B d) !! p =
    if decide (side = sd ∧ d.1 = p) then level_value d else book_side sd B !! p.
Proof.
  destruct (decide (side = sd ∧ d.1 = p)) as [[-> <-]|Hne].
  - unfold level_book, level_value.
    case_decide; rewrite book_side_set; [apply lookup_delete_eq|apply lookup_insert_eq].
  - destruct (decide (side = sd)) as [->|Hsd].
    + assert (d.1 ≠ p) as Hp by (intros ?; by apply Hne).
      unfold level_book.
      case_decide; rewrite book_side_set;
        [by apply lookup_delete_ne|by apply lookup_insert_ne].
    + unfold level_book. case_decide; by rewrite book_side_set_ne.
Qed.

Lemma levels_book_lookup side l p : ∀ B,
  book_side side (foldl (level_book side) B l) !! p =
    final_level l p (book_side side B !! p).
Proof.
  induction l as [|d l IH]; intros B; [done|].
  simpl. rewrite IH, level_book_lookup. unfold final_level. simpl.
  destruct (decide (d.1 = p)) as [Hp|Hp].
  - by rewrite decide_True by (by split).
  - rewrite decide_False; [done|]. by intros [_ ?].
Qed.

Lemma levels_book_other_side side sd l p : ∀ B,
  side ≠ sd →
  book_side sd (foldl (level_book side) B l) !! p = book_side sd B !! p.
Proof.
  induction l as [|d l IH]; intros B Hsd; [done|].
  simpl. rewrite IH by done. rewrite level_book_lookup.
  rewrite decide_False; [done|]. by intros [? _].
Qed.

Lemma updated_book_lookup L offset bids asks B p :
  book_side BID (updated_book L offset bids asks B) !! p
    = final_level (applied L offset bids) p (book_side BID B !! p) ∧
  book_side ASK (updated_book L offset bids asks B) !! p
    = final_level (applied L offset asks) p (book_side ASK B !! p).
Proof.
  unfold updated_book. split.
  - rewrite levels_book_other_side by done. apply levels_book_lookup.
  - rewrite levels_book_lookup. f_equal. by apply levels_book_other_side.
Qed.

Lemma final_level_app l1 l2 p o :
  final_level (l1 ++ l2) p o = final_level l2 p (final_level l1 p o).
Proof. apply foldl_app. Qed.

Lemma final_level_none l p o :
  Forall (λ d, d.1 ≠ p) l → final_level l p o = o.
Proof.
  revert o. induction l as [|d l IH]; intros o Hall; [done|].
  apply Forall_cons in Hall as [Hd Hall]. unfold final_level. simpl.
  rewrite decide_False by done. by apply IH.
Qed.

Lemma final_level_last l1 d l2 o :
  Forall (λ x, x.1 ≠ d.1) l2 →
  final_level (l1 ++ d :: l2) d.1 o = level_value d.
Proof.
  intros Hall. rewrite final_level_app.
  change (final_level (d :: l2) d.1 ?o')
    with (final_level l2 d.1 (if decide (d.1 = d.1) then level_value d else o')).
  rewrite decide_True by done. by apply final_level_none.
Qed.

(** Either no level of [l] is at [p], or what [l] leaves at [p] does not
    depend on what was there. *)
Lemma final_level_cases l p :
  (∀ o, final_level l p o = o) ∨ (∀ o o', final_level l p o = final_level l p o').
Proof.
  induction l as [|d l IH]; [by left|].
  destruct (decide (d.1 = p)) as [Hp|Hp].
  - right. intros o o'. unfold final_level. simpl. by rewrite !decide_True.
  - destruct IH as [IH|IH]; [left|right]; intros; unfold final_level; simpl;
      rewrite !decide_False by done; apply IH.
Qed.

Lemma final_level_idem l p o :
  final_level l p (final_level l p o) = final_level l p o.
Proof. destruct (final_level_cases l p) as [Hid|Hc]; [by rewrite !Hid|apply Hc]. Qed.

Lemma record_lookup offset l p : ∀ L,
  foldl (record_offset offset) L l !! p =
    if decide (p ∈ l.*1) then Some offset else L !! p.
Proof.
  induction l as [|d l IH]; intros L.
  - destruct (decide (p ∈ ([] : list (Decimal * Decimal)).*1)) as [Hin|_]; [|done].
    by apply elem_of_nil in Hin.
  - cbn [foldl]. rewrite IH. unfold record_offset.
    destruct (decide (p ∈ (d :: l).*1)) as [Hin|Hnin];
      destruct (decide (p ∈ l.*1)) as [Hin'|Hnin']; try done.
    + apply elem_of_cons in Hin as [->|?]; [|done]. apply lookup_insert_eq.
    + destruct Hnin. by apply list_elem_of_further.
    + apply not_elem_of_cons in Hnin as [Hne _]. by rewrite lookup_insert_ne.
Qed.

Lemma levels_book_fields side l : ∀ B,
  ob_exchange (foldl (level_book side) B l) = ob_exchange B ∧
  ob_symbol (foldl (level_book side) B l) = ob_symbol B ∧
  ob_max_depth (foldl (level_book side) B l) = ob_max_depth B.
Proof.
  induction l as [|d l IH]; intros B; [done|].
  simpl. destruct (IH (level_book side B d)) as (-> & -> & ->).
  unfold level_book. by case_decide; destruct side.
Qed.

Lemma OrderBook_eq (B1 B2 : OrderBook) :
  ob_exchange B1 = ob_exchange B2 → ob_symbol B1 = ob_symbol B2 →
  ob_max_depth B1 = ob_max_depth B2 →
  (∀ sd p, book_side sd B1 !! p = book_side sd B2 !! p) →
  B1 = B2.
Proof.
  destruct B1, B2. simpl. intros -> -> -> Hlk. f_equal.
  - apply map_eq. intros p. apply (Hlk BID p).
  - apply map_eq. intros p. apply (Hlk ASK p).
Qed.

End dYdX_final_levels.

Section dYdX_more_updates.
Import dYdX dYdXRuns.
Context {feed : Feed}.

Lemma applied_app L offset l1 l2 :
  applied L offset (l1 ++ l2) = applied L offset l1 ++ applied L offset l2.
Proof. apply filter_app. Qed.

Lemma applied_keeps_not L offset l p :
  Forall (λ x, x.1 ≠ p) l → Forall (λ x, x.1 ≠ p) (applied L offset l).
Proof.
  intros Hall. apply Forall_forall. intros x Hx.
  apply list_elem_of_filter in Hx as [_ Hx].
  by apply (proj1 (Forall_forall _ _) Hall).
Qed.

Lemma applied_prices L offset l p :
  p ∈ (applied L offset l).*1 → p ∈ l.*1.
Proof.
  intros (d & -> & Hd)%list_elem_of_fmap. apply list_elem_of_filter in Hd as [_ Hd].
  apply list_elem_of_fmap. by exists d.
Qed.

Lemma not_in_prices (l : list (Decimal * Decimal)) p :
  p ∉ l.*1 → Forall (λ x, x.1 ≠ p) l.
Proof.
  intros Hnin. apply Forall_forall. intros x Hx Heq. apply Hnin.
  apply list_elem_of_fmap. by exists x.
Qed.

(** X1: after an update handled with ledger and book present, the last
    accepted level of a side at a price decides that price on that side
    (absent for size 0, else its size) and the price's token is the
    message's offset; a price no level of the side names keeps its entry
    on that side, and a price no level of the message names keeps its
    token. *)
Theorem dydx_update_last_level_wins s msg ts pair L B offset bids asks :
  msg_type msg = "channel_data" →
  exchange_channel_to_std (msg_channel msg) = L2_BOOK →
  exchange_symbol_to_std_symbol (msg_id msg) = pair →
  msg_contents msg = Update offset bids asks →
  _offsets s !! pair = Some L →
  _l2_book s !! pair = Some B →
  let r := message_handler msg ts s in
  let levels := λ side : Side, match side with BID => bids | ASK => asks end in
  ∃ B' L',
    _l2_book (final r) !! pair = Some B' ∧
    _offsets (final r) !! pair = Some L' ∧
    (∀ side l1 d l2,
       levels side = l1 ++ d :: l2 →
       accepts L d.1 offset →
       Forall (λ x, x.1 ≠ d.1) l2 →
       book_side side B' !! d.1 = (if decide (d.2 = 0%Qc) then None else Some d.2) ∧
       L' !! d.1 = Some offset) ∧
    (∀ side p, p ∉ (levels side).*1 → book_side side B' !! p = book_side side B !! p) ∧
    (∀ p, p ∉ bids.*1 → p ∉ asks.*1 → L' !! p = L !! p).
Proof.
  intros Hty Hch Hp Hc HL HB r levels. subst r.
  rewrite (handler_book msg ts (or_introl Hty) Hch).
  rewrite (book_update_run s msg ts pair L B offset bids asks Hty Hc Hp HL HB).
  exists (updated_book L offset bids asks B), (updated_ledger L offset bids asks).
  assert (∀ side p, book_side side (updated_book L offset bids asks B) !! p
            = final_level (applied L offset (levels side)) p (book_side side B !! p)) as Hlk.
  { intros side p. destruct (updated_book_lookup L offset bids asks B p). by destruct side. }
  split_and!.
  - apply lookup_insert_eq.
  - apply lookup_insert_eq.
  - intros side l1 d l2 Hl Hacc%stale_false_accepts Hl2. split.
    + rewrite Hlk, Hl, applied_app, applied_cons, Hacc.
      apply final_level_last. by apply applied_keeps_not.
    + unfold updated_ledger. rewrite record_lookup. rewrite decide_True; [done|].
      assert (d.1 ∈ (applied L offset (levels side)).*1) as Hin.
      { rewrite Hl, applied_app, applied_cons, Hacc, fmap_app, fmap_cons.
        apply elem_of_app. right. apply list_elem_of_here. }
      rewrite fmap_app. apply elem_of_app. destruct side; [by left|by right].
  - intros side p Hnin. rewrite Hlk. apply final_level_none.
    by apply applied_keeps_not, not_in_prices.
  - intros p Hb Ha. unfold updated_ledger. rewrite record_lookup.
    rewrite decide_False; [done|]. rewrite fmap_app.
    intros [?%applied_prices|?%applied_prices]%elem_of_app; done.
Qed.

Lemma updated_again L offset bids asks B :
  let L1 := updated_ledger L offset bids asks in
  let B1 := updated_book L offset bids asks B in
  applied L1 offset bids = applied L offset bids ∧
  applied L1 offset asks = applied L offset asks ∧
  updated_book L1 offset bids asks B1 = B1 ∧
  updated_ledger L1 offset bids asks = L1.
Proof.
  intros L1 B1.
  assert (∀ l, applied L1 offset l = applied L offset l) as Happ.
  { intros l. apply applied_foldl, Forall_app. split; apply applied_fresh. }
  split_and!; [apply Happ..| |].
  - apply OrderBook_eq.
    + unfold updated_book.
      destruct (levels_book_fields ASK (applied L1 offset asks)
                  (foldl (level_book BID) B1 (applied L1 offset bids))) as (-> & _ & _).
      by destruct (levels_book_fields BID (applied L1 offset bids) B1) as (-> & _ & _).
    + unfold updated_book.
      destruct (levels_book_fields ASK (applied L1 offset asks)
                  (foldl (level_book BID) B1 (applied L1 offset bids))) as (_ & -> & _).
      by destruct (levels_book_fields BID (applied L1 offset bids) B1) as (_ & -> & _).
    + unfold updated_book.
      destruct (levels_book_fields ASK (applied L1 offset asks)
                  (foldl (level_book BID) B1 (applied L1 offset bids))) as (_ & _ & ->).
      by destruct (levels_book_fields BID (applied L1 offset bids) B1) as (_ & _ & ->).
    + intros sd p.
      destruct (updated_book_lookup L1 offset bids asks B1 p) as [Hb Ha].
      destruct (updated_book_lookup L offset bids asks B p) as [Hb0 Ha0].
      rewrite !Happ in Hb, Ha. fold B1 in Hb0, Ha0.
      destruct sd; simpl in *.
      * by rewrite Hb, Hb0, final_level_idem.
      * by rewrite Ha, Ha0, final_level_idem.
  - apply map_eq. intros p. unfold updated_ledger at 1. rewrite !Happ.
    rewrite record_lookup. unfold L1, updated_ledger. rewrite record_lookup.
    by case_decide.
Qed.

(** X2: an update delivered a second time is accepted again, since equal
    tokens pass: it returns normally, leaves the state exactly as the
    first delivery left it, and emits the same event as the first
    delivery did (or none, if that emitted none). *)
Theorem dydx_update_redelivery s msg ts ts' pair L B offset bids asks :
  msg_type msg = "channel_data" →
  exchange_channel_to_std (msg_channel msg) = L2_BOOK →
  exchange_symbol_to_std_symbol (msg_id msg) = pair →
  msg_contents msg = Update offset bids asks →
  _offsets s !! pair = Some L →
  _l2_book s !! pair = Some B →
  let r1 := message_handler msg ts s in
  let r2 := message_handler msg ts' (final r1) in
  outcome r2 = inr tt ∧
  final r2 = final r1 ∧
  ∃ B', _l2_book (final r1) !! pair = Some B' ∧
        effects r1 = update_events msg ts B' (applied L offset bids) (applied L offset asks) ∧
        effects r2 = update_events msg ts' B' (applied L offset bids) (applied L offset asks).
Proof.
  intros Hty Hch Hp Hc HL HB r1 r2. subst r1 r2.
  rewrite !(handler_book msg _ (or_introl Hty) Hch).
  rewrite (book_update_run s msg ts pair L B offset bids asks Hty Hc Hp HL HB).
  unfold outcome, final, effects. cbn [fst snd].
  set (L1 := updated_ledger L offset bids asks).
  set (B1 := updated_book L offset bids asks B).
  rewrite (book_update_run _ msg ts' pair L1 B1 offset bids asks Hty Hc Hp
             (lookup_insert_eq _ _ _) (lookup_insert_eq _ _ _)).
  destruct (updated_again L offset bids asks B) as (Hab & Haa & HB1 & HL1).
  fold L1 B1 in Hab, Haa, HB1, HL1. rewrite Hab, Haa, HB1, HL1, put_pair_put.
  cbn [fst snd]. split_and!; [done..|].
  exists B1. split_and!; [apply lookup_insert_eq|done..].
Qed.

End dYdX_more_updates.

(** ** dYdX: symbols do not interfere, and only book messages change state *)

Section more_preserved.
Context {S E : Type} (R : relation S) `{!PreOrder R}.

Lemma preserves_for_ {A} (body : A → Py S E unit) (l : list A) :
  (∀ x, preserves R (body x)) → preserves R (for_ l body).
Proof.
  intros Hbody. induction l as [|x l IH].
  - by apply preserves_same.
  - simpl. by apply preserves_bind.
Qed.

End more_preserved.

Section dYdX_isolation.
Import dYdX dYdXRuns.
Context {feed : Feed}.

Lemma same_at_preorder pair' : PreOrder (same_at pair').
Proof.
  split.
  - by intros s.
  - intros s1 s2 s3 [Hb12 Ho12] [Hb23 Ho23]. split; congruence.
Qed.

#[local] Existing Instance same_at_preorder.

Lemma set_book_same_at pair pair' v :
  pair ≠ pair' → preserves (same_at pair') (set_book pair v).
Proof. intros Hne s. split; simpl; [by apply lookup_insert_ne|done]. Qed.

Lemma set_offsets_same_at pair pair' v :
  pair ≠ pair' → preserves (same_at pair') (set_offsets pair v).
Proof. intros Hne s. split; simpl; [done|by apply lookup_insert_ne]. Qed.

Lemma offsets_at_same_at pair pair' : preserves (same_at pair') (offsets_at pair).
Proof.
  apply (preserves_same (same_at pair')). intros s.
  unfold offsets_at. py_unfold. by destruct (_offsets s !! pair).
Qed.

Lemma book_at_same_at pair pair' : preserves (same_at pair') (book_at pair).
Proof.
  apply (preserves_same (same_at pair')). intros s.
  unfold book_at. py_unfold. by destruct (_l2_book s !! pair).
Qed.

Lemma store_offset_same_at pair pair' price offset :
  pair ≠ pair' → preserves (same_at pair') (store_offset pair price offset).
Proof.
  intros Hne. apply (preserves_bind (same_at pair')); [apply offsets_at_same_at|].
  intros ledger. by apply set_offsets_same_at.
Qed.

Lemma store_level_same_at pair pair' side price amount :
  pair ≠ pair' → preserves (same_at pair') (store_level pair side price amount).
Proof.
  intros Hne. apply (preserves_bind (same_at pair')); [apply book_at_same_at|].
  intros ob. by apply set_book_same_at.
Qed.

Lemma del_level_same_at pair pair' side price :
  pair ≠ pair' → preserves (same_at pair') (del_level pair side price).
Proof.
  intros Hne. apply (preserves_bind (same_at pair')); [apply book_at_same_at|].
  intros ob. destruct (book_side side ob !! price).
  - by apply set_book_same_at.
  - by apply (preserves_same (same_at pair')).
Qed.

Lemma book_level_same_at pair pair' offset side loc data :
  pair ≠ pair' → preserves (same_at pair') (book_level pair offset side loc data).
Proof.
  intros Hne. unfold book_level.
  apply (preserves_bind (same_at pair')); [apply offsets_at_same_at|].
  intros ledger. destruct (stale ledger data.1 offset).
  { by apply (preserves_same (same_at pair')). }
  apply (preserves_bind (same_at pair')); [by apply store_offset_same_at|].
  intros _. apply (preserves_bind (same_at pair'));
    [|intros; by apply (preserves_same (same_at pair'))].
  case_decide; [|by apply store_level_same_at].
  apply (preserves_bind (same_at pair')); [apply book_at_same_at|].
  intros ob. case_decide; [by apply del_level_same_at|].
  by apply (preserves_same (same_at pair')).
Qed.

Lemma snapshot_entry_same_at pair pair' side entry :
  pair ≠ pair' → preserves (same_at pair') (snapshot_entry pair side entry).
Proof.
  intros Hne. unfold snapshot_entry.
  apply (preserves_bind (same_at pair')); [by apply store_offset_same_at|].
  intros _. case_decide; [by apply store_level_same_at|].
  by apply (preserves_same (same_at pair')).
Qed.

Lemma book_same_at msg ts pair' :
  exchange_symbol_to_std_symbol (msg_id msg) ≠ pair' →
  preserves (same_at pair') (_book msg ts).
Proof.
  intros Hne. unfold _book. case_decide.
  - destruct (msg_contents msg) as [offset bids asks| |];
      try by apply (preserves_same (same_at pair')).
    apply (preserves_bind (same_at pair')).
    { apply (preserves_for_acc (same_at pair')). intros. by apply book_level_same_at. }
    intros loc1. apply (preserves_bind (same_at pair')).
    { apply (preserves_for_acc (same_at pair')). intros. by apply book_level_same_at. }
    intros [[] dl]; cbn [fst snd]; [|by apply (preserves_same (same_at pair'))].
    apply (preserves_bind (same_at pair')); [apply book_at_same_at|].
    intros ob. by apply (preserves_same (same_at pair')).
  - apply (preserves_bind (same_at pair')); [by apply set_book_same_at|].
    intros _. apply (preserves_bind (same_at pair')); [by apply set_offsets_same_at|].
    intros _. apply (preserves_bind (same_at pair')).
    { destruct (msg_contents msg) as [| sides |[|? ?]];
        try by apply (preserves_same (same_at pair')).
      apply (preserves_for_ (same_at pair')). intros kv.
      apply (preserves_for_ (same_at pair')). intros entry.
      by apply snapshot_entry_same_at. }
    intros _. apply (preserves_bind (same_at pair')); [apply book_at_same_at|].
    intros ob. by apply (preserves_same (same_at pair')).
Qed.

Lemma not_book_state msg ts s :
  ¬ is_book_message msg → final (message_handler msg ts s) = s.
Proof.
  intros Hnb. unfold message_handler.
  destruct (decide (msg_type msg = "channel_data" ∨ msg_type msg = "subscribed")) as [Hty|_].
  - destruct (decide (exchange_channel_to_std (msg_channel msg) = L2_BOOK)) as [Hch|_].
    + destruct Hnb. by split.
    + case_decide; [apply trade_state|done].
  - by case_decide.
Qed.

(** X3: a message for one symbol never changes the book or the ledger of
    another symbol, whatever the message and the state are and whether
    the handler returns or raises. *)
Theorem dydx_symbols_isolated msg ts s pair' :
  exchange_symbol_to_std_symbol (msg_id msg) ≠ pair' →
  _l2_book (final (message_handler msg ts s)) !! pair' = _l2_book s !! pair' ∧
  _offsets (final (message_handler msg ts s)) !! pair' = _offsets s !! pair'.
Proof.
  intros Hne.
  destruct (decide (is_book_message msg)) as [[Hty Hch]|Hnb].
  - rewrite (handler_book msg ts Hty Hch). by apply (book_same_at msg ts pair').
  - by rewrite not_book_state.
Qed.


End dYdX_isolation.

Lemma dydx_symbols_isolated_witness :
  dYdX._l2_book (final (dYdX.message_handler (feed := Demo.dydx_feed) Demo.snapshot_zero
                          0%float Demo.state_A)) !! "ETH-USD"
    = dYdX._l2_book Demo.state_A !! "ETH-USD" ∧
  dYdX._offsets (final (dYdX.message_handler (feed := Demo.dydx_feed) Demo.snapshot_zero
                          0%float Demo.state_A)) !! "ETH-USD"
    = dYdX._offsets Demo.state_A !! "ETH-USD".
Proof.
  apply (dydx_symbols_isolated (feed := Demo.dydx_feed)). vm_compute. discriminate.
Defined.


(** ** dYdX: what holds in every state the adapter reaches *)

Section dYdX_consistency.
Import dYdX dYdXRuns.
Context {feed : Feed}.

Lemma consistent_put pair B L s :
  consistent s →
  (∀ sd p, is_Some (book_side sd B !! p) → is_Some (L !! p)) →
  no_zero_level B →
  consistent (put_pair pair B L s).
Proof.
  intros Hs HBL HB pair'. unfold put_pair. simpl.
  destruct (decide (pair = pair')) as [<-|Hne].
  - right. exists B, L. by rewrite !lookup_insert_eq.
  - rewrite !lookup_insert_ne by done. apply Hs.
Qed.

Lemma new_book_empty exchange pair depth sd p :
  book_side sd (OrderBook_new exchange pair depth) !! p = None.
Proof. by destruct sd. Qed.

Lemma consistent_put_new pair s :
  consistent s → consistent (put_pair pair (OrderBook_new id pair max_depth) ∅ s).
Proof.
  intros Hs. apply consistent_put; [done| |].
  - intros sd p [v Hv]. by rewrite new_book_empty in Hv.
  - intros sd p. by rewrite new_book_empty.
Qed.

Lemma update_no_ledger_state s msg ts :
  msg_type msg = "channel_data" →
  _offsets s !! exchange_symbol_to_std_symbol (msg_id msg) = None →
  final (_book msg ts s) = s.
Proof.
  intros Hty Hno. unfold _book. rewrite decide_True by done.
  destruct (msg_contents msg) as [offset bids asks| |]; try done.
  destruct bids as [|b bids].
  - rewrite (bind_ok _ _ _ _ _ _ (levels_no_ledger _ offset BID [] _ s Hno)).
    destruct asks as [|a asks].
    + by rewrite (bind_ok _ _ _ _ _ _ (levels_no_ledger _ offset ASK [] _ s Hno)).
    + by rewrite (bind_exn _ _ _ _ _ _ (levels_no_ledger _ offset ASK (a :: asks) _ s Hno)).
  - by rewrite (bind_exn _ _ _ _ _ _ (levels_no_ledger _ offset BID (b :: bids) _ s Hno)).
Qed.

Lemma not_update_state s msg ts :
  msg_type msg = "channel_data" →
  (∀ offset bids asks, msg_contents msg ≠ Update offset bids asks) →
  final (_book msg ts s) = s.
Proof.
  intros Hty Hc. unfold _book. rewrite decide_True by done.
  destruct (msg_contents msg) as [offset bids asks| |]; [|done..].
  by destruct (Hc offset bids asks).
Qed.

Lemma not_snapshot_state s msg ts :
  msg_type msg ≠ "channel_data" →
  (∀ sides, msg_contents msg ≠ Snapshot sides) →
  final (_book msg ts s) =
    put_pair (exchange_symbol_to_std_symbol (msg_id msg))
      (OrderBook_new id (exchange_symbol_to_std_symbol (msg_id msg)) max_depth) ∅ s.
Proof.
  intros Hty Hc. unfold _book. rewrite decide_False by done.
  destruct (msg_contents msg) as [offset bids asks|sides|[|t trades]].
  - done.
  - by destruct (Hc sides).
  - unfold set_book, set_offsets, book_at, put_pair. py_unfold.
    by rewrite lookup_insert_eq.
  - done.
Qed.

Lemma updated_consistent L B offset bids asks :
  (∀ sd p, is_Some (book_side sd B !! p) → is_Some (L !! p)) →
  no_zero_level B →
  (∀ sd p, is_Some (book_side sd (updated_book L offset bids asks B) !! p) →
           is_Some (updated_ledger L offset bids asks !! p)) ∧
  no_zero_level (updated_book L offset bids asks B).
Proof.
  intros HBL HB. split.
  - intros sd p Hsome. unfold updated_ledger. rewrite record_lookup.
    case_decide as Hin; [done|]. apply (HBL sd).
    rewrite fmap_app in Hin. apply not_elem_of_app in Hin as [Hb Ha].
    destruct (updated_book_lookup L offset bids asks B p) as [Hlb Hla].
    destruct sd.
    + rewrite Hlb, final_level_none in Hsome; [done|by apply not_in_prices].
    + rewrite Hla, final_level_none in Hsome; [done|by apply not_in_prices].
  - by apply levels_book_no_zero, levels_book_no_zero.
Qed.

Lemma snapshot_consistent pair sides :
  (∀ sd p, is_Some (book_side sd (snapshot_book pair sides) !! p) →
           is_Some (snapshot_ledger sides !! p)) ∧
  no_zero_level (snapshot_book pair sides).
Proof.
  assert (∀ sd p sz, book_side sd (snapshot_book pair sides) !! p = Some sz →
            (0 < sz)%Qc ∧ ∃ e, (sd, e) ∈ snapshot_entries sides ∧ e_price e = p ∧ e_size e = sz)
    as Hbook.
  { intros sd p sz Hlk. apply install_lookup in Hlk as [Hlk|?]; [|done].
    by rewrite new_book_empty in Hlk. }
  split.
  - intros sd p [sz Hsz]. apply Hbook in Hsz as (_ & e & Hin & <- & _).
    by eapply seed_present.
  - intros sd p Hz. apply Hbook in Hz as [Hpos _]. by apply Qclt_not_eq in Hpos.
Qed.

Lemma handler_consistent msg ts s :
  consistent s → consistent (final (message_handler msg ts s)).
Proof.
  intros Hs.
  destruct (decide (is_book_message msg)) as [[Hty Hch]|Hnb];
    [|by rewrite not_book_state].
  rewrite (handler_book msg ts Hty Hch).
  set (pair := exchange_symbol_to_std_symbol (msg_id msg)).
  destruct (decide (msg_type msg = "channel_data")) as [Hcd|Hcd].
  - destruct (msg_contents msg) as [offset bids asks| |] eqn:Hc;
      [|rewrite not_update_state; [done..|intros ???; by rewrite Hc]
       |rewrite not_update_state; [done..|intros ???; by rewrite Hc]].
    destruct (Hs pair) as [[HB HL]|(B & L & HB & HL & HBL & Hz)].
    + by rewrite update_no_ledger_state.
    + rewrite (book_update_run s msg ts pair L B offset bids asks Hcd Hc eq_refl HL HB).
      destruct (updated_consistent L B offset bids asks HBL Hz).
      by apply consistent_put.
  - destruct (msg_contents msg) as [offset bids asks|sides|trades] eqn:Hc.
    + rewrite not_snapshot_state; [by apply consistent_put_new|done|].
      intros ?. by rewrite Hc.
    + rewrite (book_snapshot_run s msg ts pair sides Hcd Hc eq_refl).
      destruct (snapshot_consistent pair sides). by apply consistent_put.
    + rewrite not_snapshot_state; [by apply consistent_put_new|done|].
      intros ?. by rewrite Hc.
Qed.

(** X5: in every state the adapter reaches from a subscribe by handling
    messages of any kind, well formed or not, a symbol has a book exactly
    when it has a ledger, every price on either side of a book has a
    token in the ledger, and no book holds a level of size 0. *)
Theorem dydx_reachable_consistent s0 s :
  rtc handled (final (subscribe s0)) s → consistent s.
Proof.
  assert (consistent (final (subscribe s0))) as Hinit.
  { assert (final (subscribe s0) = mkState ∅ ∅) as ->.
    { unfold subscribe, __reset. unfold bind at 1. unfold modify at 1.
      by rewrite (for_effects _
        (λ cs, (λ symbol, ConnWrite (subscribe_msg cs.1 symbol)) <$> cs.2))
        by (intros; apply for_map_emit). }
    intros pair. left. split; apply lookup_empty. }
  revert Hinit. generalize (final (subscribe s0)). intros s1 Hinit Hrtc.
  induction Hrtc as [s|s1 s2 s3 (msg & ts & ->) _ IH]; [done|].
  by apply IH, handler_consistent.
Qed.

(** X6: a snapshot erases the history of its symbol.  Book, ledger and
    emitted event are the same from whatever state the snapshot is
    handled, and handling it a second time changes nothing and emits the
    same event again. *)
Theorem dydx_snapshot_erases_history s s' msg ts pair sides :
  msg_type msg = "subscribed" →
  exchange_channel_to_std (msg_channel msg) = L2_BOOK →
  exchange_symbol_to_std_symbol (msg_id msg) = pair →
  msg_contents msg = Snapshot sides →
  let r := message_handler msg ts s in
  let r' := message_handler msg ts s' in
  _l2_book (final r) !! pair = _l2_book (final r') !! pair ∧
  _offsets (final r) !! pair = _offsets (final r') !! pair ∧
  effects r = effects r' ∧
  message_handler msg ts (final r) = (inr tt, final r, effects r).
Proof.
  intros Hty Hch Hp Hc r r'. subst r r'.
  rewrite !(snapshot_handled _ msg ts pair sides Hty Hch Hp Hc).
  unfold final, effects. cbn [fst snd]. split_and!.
  - unfold put_pair. cbn [_l2_book]. by rewrite !lookup_insert_eq.
  - unfold put_pair. cbn [_offsets]. by rewrite !lookup_insert_eq.
  - done.
  - by rewrite put_pair_put.
Qed.

End dYdX_consistency.

Lemma dydx_update_last_level_wins_witness :
  ∃ B' L',
    dYdX._l2_book (final (dYdX.message_handler (feed := Demo.dydx_feed) Demo.update_fresh
                            0%float Demo.state_A)) !! "BTC-USD" = Some B' ∧
    dYdX._offsets (final (dYdX.message_handler (feed := Demo.dydx_feed) Demo.update_fresh
                            0%float Demo.state_A)) !! "BTC-USD" = Some L' ∧
    book_side BID B' !! Demo.dec 100 = Some (Demo.dec 1) ∧
    L' !! Demo.dec 100 = Some 6.
Proof.
  destruct (dydx_update_last_level_wins (feed := Demo.dydx_feed)
              Demo.state_A Demo.update_fresh 0%float "BTC-USD" Demo.ledger_A Demo.book_A
              6 [(Demo.dec 100, Demo.dec 1)] []
              ltac:(vm_compute; reflexivity) ltac:(vm_compute; reflexivity)
              ltac:(vm_compute; reflexivity) ltac:(vm_compute; reflexivity)
              ltac:(vm_compute; reflexivity) ltac:(vm_compute; reflexivity))
    as (B' & L' & HB' & HL' & Hlast & _).
  exists B', L'. split_and!; [exact HB'|exact HL'| |].
  - refine (proj1 (Hlast BID [] (Demo.dec 100, Demo.dec 1) [] eq_refl _ _)).
    + right. exists 5. split; [vm_compute; reflexivity|lia].
    + constructor.
  - refine (proj2 (Hlast BID [] (Demo.dec 100, Demo.dec 1) [] eq_refl _ _)).
    + right. exists 5. split; [vm_compute; reflexivity|lia].
    + constructor.
Defined.

Lemma dydx_update_redelivery_witness :
  final (dYdX.message_handler (feed := Demo.dydx_feed) Demo.update_fresh 1%float
           (final (dYdX.message_handler (feed := Demo.dydx_feed) Demo.update_fresh 0%float
                     Demo.state_A)))
    = final (dYdX.message_handler (feed := Demo.dydx_feed) Demo.update_fresh 0%float
               Demo.state_A).
Proof.
  refine (proj1 (proj2 (dydx_update_redelivery (feed := Demo.dydx_feed)
            Demo.state_A Demo.update_fresh 0%float 1%float "BTC-USD"
            Demo.ledger_A Demo.book_A 6 [(Demo.dec 100, Demo.dec 1)] [] _ _ _ _ _ _))).
  all: vm_compute; reflexivity.
Defined.

Lemma dydx_reachable_consistent_witness :
  dYdXRuns.consistent
    (final (dYdX.message_handler (feed := Demo.dydx_feed) Demo.snapshot_zero 0%float
              (final (dYdX.subscribe (feed := Demo.dydx_feed) Demo.state_A)))).
Proof.
  apply (dydx_reachable_consistent (feed := Demo.dydx_feed) Demo.state_A).
  apply rtc_once. exists Demo.snapshot_zero, 0%float. reflexivity.
Defined.

Lemma dydx_snapshot_erases_history_witness :
  dYdX.message_handler (feed := Demo.dydx_feed) Demo.snapshot_A 0%float
      (final (dYdX.message_handler (feed := Demo.dydx_feed) Demo.snapshot_A 0%float
                Demo.state_empty))
    = (inr tt,
       final (dYdX.message_handler (feed := Demo.dydx_feed) Demo.snapshot_A 0%float
                Demo.state_empty),
       effects (dYdX.message_handler (feed := Demo.dydx_feed) Demo.snapshot_A 0%float
                  Demo.state_empty)).
Proof.
  refine (proj2 (proj2 (proj2 (dydx_snapshot_erases_history (feed := Demo.dydx_feed)
            Demo.state_empty Demo.state_A Demo.snapshot_A 0%float "BTC-USD"
            [("bids", [dYdX.mkEntry (Demo.dec 100) (Demo.dec 2) 5]);
             ("asks", [dYdX.mkEntry (Demo.dec 101) (Demo.dec 3) 5])] _ _ _ _)))).
  all: vm_compute; reflexivity.
Defined.

(** ** Upbit: further properties *)

Section Upbit_more.
Import Upbit UpbitRuns.
Context {feed : Feed}.

Lemma dict_of_app l1 l2 :
  dict_of (l1 ++ l2) = foldl (λ m kv, <[kv.1 := kv.2]> m) (dict_of l1) l2.
Proof. apply foldl_app. Qed.

Lemma dict_fold_other (l : list (Decimal * Decimal)) p : ∀ m : Levels,
  p ∉ l.*1 → foldl (λ m kv, <[kv.1 := kv.2]> m) m l !! p = m !! p.
Proof.
  induction l as [|[k v] l IH]; intros m Hnin; [done|].
  apply not_elem_of_cons in Hnin as [Hne Hnin]. simpl.
  rewrite IH by done. by apply lookup_insert_ne.
Qed.

Lemma dict_of_last l1 k v l2 :
  k ∉ l2.*1 → dict_of (l1 ++ (k, v) :: l2) !! k = Some v.
Proof.
  intros Hnin. rewrite dict_of_app. simpl.
  rewrite dict_fold_other by done. apply lookup_insert_eq.
Qed.

Lemma replaced_book_again s pair obu ob :
  ob = replaced_book s pair obu →
  replaced_book (mkState (<[pair := ob]> (_l2_book s))) pair obu = ob.
Proof.
  intros ->. unfold replaced_book, book_object. simpl. by rewrite lookup_insert_eq.
Qed.

(** X7: an order-book message leaves, on each side, for every unit with
    a price above 0 on that side that no later unit repeats, exactly that
    unit's size at that price; it changes no other symbol; and handled a
    second time it leaves the state as it is and emits the same event. *)
Theorem upbit_last_unit_wins s msg ts obu f :
  msg_ty msg = "orderbook" →
  msg_payload msg = OrderbookPayload obu →
  to_float (msg_tms msg) = Some f →
  let pair := exchange_symbol_to_std_symbol (msg_cd msg) in
  let r := message_handler msg ts s in
  ∃ ob,
    _l2_book (final r) !! pair = Some ob ∧
    (∀ l1 unit l2, obu = l1 ++ unit :: l2 → (0 < u_bp unit)%Qc →
       Forall (λ x, u_bp x ≠ u_bp unit) l2 →
       bids ob !! u_bp unit = Some (u_bs unit)) ∧
    (∀ l1 unit l2, obu = l1 ++ unit :: l2 → (0 < u_ap unit)%Qc →
       Forall (λ x, u_ap x ≠ u_ap unit) l2 →
       asks ob !! u_ap unit = Some (u_as unit)) ∧
    (∀ pair', pair' ≠ pair → _l2_book (final r) !! pair' = _l2_book s !! pair') ∧
    message_handler msg ts (final r) = (inr tt, final r, effects r).
Proof.
  intros Hty Hpl Hf pair r. subst r.
  assert (∀ s0, message_handler msg ts s0 = _book msg ts s0) as Hroute.
  { intros s0. unfold message_handler. rewrite decide_False by (rewrite Hty; done).
    by rewrite decide_True. }
  rewrite !Hroute, (upbit_book_run s msg ts obu f Hpl Hf). fold pair.
  unfold final, effects. cbn [fst snd].
  exists (replaced_book s pair obu). split_and!.
  - apply lookup_insert_eq.
  - intros l1 unit l2 -> Hpos Hl2. simpl. unfold bids_of.
    rewrite filter_app, filter_cons_True by done. rewrite fmap_app, fmap_cons.
    apply dict_of_last. intros (x & Hx & Hin)%list_elem_of_fmap.
    apply list_elem_of_fmap in Hin as (unit' & -> & Hin).
    apply list_elem_of_filter in Hin as [_ Hin].
    by apply (proj1 (Forall_forall _ _) Hl2 unit').
  - intros l1 unit l2 -> Hpos Hl2. simpl. unfold asks_of.
    rewrite filter_app, filter_cons_True by done. rewrite fmap_app, fmap_cons.
    apply dict_of_last. intros (x & Hx & Hin)%list_elem_of_fmap.
    apply list_elem_of_fmap in Hin as (unit' & -> & Hin).
    apply list_elem_of_filter in Hin as [_ Hin].
    by apply (proj1 (Forall_forall _ _) Hl2 unit').
  - intros pair' Hne. simpl. by apply lookup_insert_ne.
  - rewrite (upbit_book_run _ msg ts obu f Hpl Hf). fold pair.
    rewrite (replaced_book_again s pair obu _ eq_refl). simpl.
    by rewrite insert_insert_eq.
Qed.

Lemma upbit_trade_state msg ts s : final (_trade msg ts s) = s.
Proof.
  unfold _trade. destruct (msg_payload msg); [|done].
  unfold timestamp_normalize, float_of_int. by destruct (to_float ttms).
Qed.

(** The states an order-book handler can end in. *)
Lemma upbit_book_states msg ts s :
  let pair := exchange_symbol_to_std_symbol (msg_cd msg) in
  final (_book msg ts s) = s ∨
  final (_book msg ts s) = mkState (<[pair := book_object s pair]> (_l2_book s)) ∨
  ∃ obu, final (_book msg ts s) = mkState (<[pair := replaced_book s pair obu]> (_l2_book s)).
Proof.
  intros pair. destruct (to_float (msg_tms msg)) as [f|] eqn:Hf.
  - destruct (msg_payload msg) as [|obu] eqn:Hpl.
    + right. left. unfold _book. rewrite Hpl.
      rewrite (bind_ok _ _ _ _ _ _ (upbit_timestamp_run _ f s Hf)). fold pair.
      destruct s as [bk]. unfold book_object, set_book. py_unfold.
      destruct (decide (is_Some (bk !! pair))) as [[ob Hob]|Hno]; simpl.
      * rewrite Hob. simpl. by rewrite (insert_id _ _ _ Hob).
      * apply eq_None_not_Some in Hno. by rewrite Hno.
    + right. right. exists obu. by rewrite (upbit_book_run s msg ts obu f Hpl Hf).
  - left. unfold _book, timestamp_normalize, float_of_int. rewrite Hf. done.
Qed.

(** X8: only order-book messages change the Upbit adapter's state, and
    they change only their own symbol.  A trade message leaves the state
    as it is even when it raises, and raises [OverflowError] without
    calling back when its timestamp is beyond the float range; a message
    of any other type only logs a warning. *)
Theorem upbit_only_orderbook_changes_state msg ts s :
  (msg_ty msg = "trade" →
     final (message_handler msg ts s) = s ∧
     (∀ tp tv ttms ab sid,
        msg_payload msg = TradePayload tp tv ttms ab sid → to_float ttms = None →
        message_handler msg ts s = (inl OverflowError, s, []))) ∧
  (msg_ty msg ≠ "trade" → msg_ty msg ≠ "orderbook" →
     message_handler msg ts s = (inr tt, s, [LogWarning msg])) ∧
  (∀ pair', pair' ≠ exchange_symbol_to_std_symbol (msg_cd msg) →
     _l2_book (final (message_handler msg ts s)) !! pair' = _l2_book s !! pair').
Proof.
  split_and!.
  - intros Hty. unfold message_handler. rewrite decide_True by done. split.
    + apply upbit_trade_state.
    + intros tp tv ttms ab sid Hpl Hf. unfold _trade. rewrite Hpl.
      unfold timestamp_normalize, float_of_int. by rewrite Hf.
  - intros H1 H2. unfold message_handler. by rewrite !decide_False.
  - intros pair' Hne. unfold message_handler.
    case_decide; [by rewrite upbit_trade_state|].
    case_decide; [|done].
    destruct (upbit_book_states msg ts s) as [->|[->|[obu ->]]]; [done|..];
      simpl; by rewrite lookup_insert_ne.
Qed.

Lemma dict_of_positive (obu : list OrderbookUnit) (key val : OrderbookUnit → Decimal) p sz :
  dict_of ((λ unit, (key unit, val unit)) <$> filter (λ unit, (0 < key unit)%Qc) obu) !! p
    = Some sz →
  (0 < p)%Qc.
Proof.
  intros Hlk. apply dict_of_lookup in Hlk.
  apply list_elem_of_fmap in Hlk as (unit & [= -> ->] & Hin).
  by apply list_elem_of_filter in Hin as [Hpos _].
Qed.

Lemma handler_positive msg ts s :
  positive_prices s → positive_prices (final (message_handler msg ts s)).
Proof.
  intros Hs. unfold message_handler.
  case_decide; [by rewrite upbit_trade_state|].
  case_decide; [|done].
  set (pair := exchange_symbol_to_std_symbol (msg_cd msg)).
  assert (∀ ob p sd sz, ob = book_object s pair →
            book_side sd ob !! p = Some sz → (0 < p)%Qc) as Hobj.
  { intros ob p sd sz -> Hlk. unfold book_object in Hlk.
    destruct (_l2_book s !! pair) as [ob|] eqn:Hob; simpl in Hlk.
    - by eapply Hs.
    - by destruct sd. }
  destruct (upbit_book_states msg ts s) as [->|[->|[obu ->]]]; [done|..];
    intros pair' ob sd p sz Hob Hlk; simpl in Hob; fold pair in Hob;
    (destruct (decide (pair = pair')) as [<-|Hne];
      [rewrite lookup_insert_eq in Hob; injection Hob as <-
      |rewrite lookup_insert_ne in Hob by done; by eapply Hs]).
  - by eapply Hobj.
  - destruct sd; simpl in Hlk.
    + by apply (dict_of_positive obu u_bp u_bs) in Hlk.
    + by apply (dict_of_positive obu u_ap u_as) in Hlk.
Qed.

(** X9: starting from an adapter without books, after any sequence of
    handled messages, well formed or not, every level of every book has a
    price above 0. *)
Theorem upbit_reachable_positive_prices s :
  rtc handled (mkState ∅) s → positive_prices s.
Proof.
  assert (positive_prices (mkState ∅)) as Hinit.
  { intros pair ob sd p sz Hob. simpl in Hob. by rewrite lookup_empty in Hob. }
  revert Hinit. generalize (mkState ∅). intros s1 Hinit Hrtc.
  induction Hrtc as [s|s1 s2 s3 (msg & ts & ->) _ IH]; [done|].
  by apply IH, handler_positive.
Qed.

Lemma subscribe_chans_fold l : ∀ chans,
  foldl subscribe_chan chans l = chans ++ omap chan_entry l.
Proof.
  induction l as [|cs l IH]; intros chans; [by rewrite app_nil_r|].
  simpl. rewrite IH. unfold subscribe_chan, chan_entry.
  destruct (decide (cs.1 = L2_BOOK)) as [Hb|Hb].
  - rewrite decide_False by (rewrite Hb; done). simpl. by rewrite <- app_assoc.
  - destruct (decide (cs.1 = TRADES)); simpl; [by rewrite <- app_assoc|done].
Qed.

(** X10: the Upbit subscribe writes exactly one payload, also for an
    empty subscription: the ticket, the format flag, and then, in
    subscription order, one element for each subscribed book or trades
    channel with all its codes; a channel that is neither is left out
    without an error. *)
Theorem upbit_subscribe_payload ticket s :
  subscribe ticket s =
    (inr tt, s,
     [ConnWrite (JList (JObj [("ticket", JStr ticket)] :: JObj [("format", JStr "SIMPLE")]
                          :: omap chan_entry subscription))]).
Proof. unfold subscribe. by rewrite subscribe_chans_fold. Qed.

End Upbit_more.

Lemma upbit_last_unit_wins_witness :
  ∃ ob,
    Upbit._l2_book (final (Upbit.message_handler (feed := Demo.upbit_feed) Demo.upbit_scenario
                             0%float Demo.upbit_state)) !! "KRW-BTC" = Some ob ∧
    bids ob !! Demo.dec 6719000 = Some (Demo.dec 3).
Proof.
  destruct (upbit_last_unit_wins (feed := Demo.upbit_feed) Demo.upbit_state
              Demo.upbit_scenario 0%float
              [Upbit.mkUnit (Demo.dec 6727000) (Demo.dec 1) (Demo.dec 6721000) (Demo.dec 2);
               Upbit.mkUnit (Demo.dec 0) (Demo.dec 5) (Demo.dec 6719000) (Demo.dec 3)]
              1584263923870%float
              ltac:(vm_compute; reflexivity) ltac:(vm_compute; reflexivity)
              ltac:(vm_compute; reflexivity))
    as (ob & Hob & Hbids & _).
  exists ob. split; [exact Hob|].
  refine (Hbids [Upbit.mkUnit (Demo.dec 6727000) (Demo.dec 1) (Demo.dec 6721000) (Demo.dec 2)]
            (Upbit.mkUnit (Demo.dec 0) (Demo.dec 5) (Demo.dec 6719000) (Demo.dec 3)) []
            eq_refl _ _).
  - vm_compute. reflexivity.
  - constructor.
Defined.

Lemma upbit_reachable_positive_prices_witness :
  UpbitRuns.positive_prices
    (final (Upbit.message_handler (feed := Demo.upbit_feed) Demo.upbit_scenario 0%float
              (Upbit.mkState ∅))).
Proof.
  apply (upbit_reachable_positive_prices (feed := Demo.upbit_feed)).
  apply rtc_once. exists Demo.upbit_scenario, 0%float. reflexivity.
Defined.

(** ** The instrument catalogs *)

Section catalog_strings.
Import Stdlib.Strings.Ascii Catalog.

Lemma split_not_nil sep s : split sep s ≠ [].
Proof.
  destruct s as [|c s]; [done|]. simpl. case_decide; [done|].
  by destruct (split sep s).
Qed.

Lemma join_cons sep w ws :
  ws ≠ [] → join sep (w :: ws) = w +:+ String sep (join sep ws).
Proof. by destruct ws. Qed.

Lemma length_split sep s : length (split sep s) = Datatypes.S (count_char sep s).
Proof.
  induction s as [|c s IH]; [done|]. simpl. case_decide; simpl.
  - by rewrite IH.
  - rewrite <- IH. pose proof (split_not_nil sep s). by destruct (split sep s).
Qed.

(** Joining the parts of a split gives the string back. *)
Lemma join_split sep s : join sep (split sep s) = s.
Proof.
  induction s as [|c s IH]; [done|]. simpl. case_decide as Hc.
  - rewrite join_cons by apply split_not_nil. rewrite IH. by subst.
  - pose proof (split_not_nil sep s) as Hnn.
    destruct (split sep s) as [|w [|w' ws]]; [done|..].
    + simpl in *. by rewrite IH.
    + rewrite join_cons by done. rewrite join_cons in IH by done.
      by rewrite <- IH.
Qed.

Lemma split_no_sep sep s : Forall (λ w, count_char sep w = 0%nat) (split sep s).
Proof.
  induction s as [|c s IH]; [by repeat constructor|]. simpl. case_decide as Hc.
  - by constructor.
  - destruct (split sep s) as [|w ws].
    + repeat constructor. simpl. by rewrite decide_False.
    + apply Forall_cons in IH as [Hw Hws]. constructor; [|done].
      simpl. by rewrite decide_False.
Qed.

Lemma split_two sep s a b :
  split sep s = [a; b] →
  s = a +:+ String sep b ∧ count_char sep a = 0%nat ∧ count_char sep b = 0%nat.
Proof.
  intros Hs. pose proof (join_split sep s) as Hj. pose proof (split_no_sep sep s) as Hn.
  rewrite Hs in Hj, Hn. simpl in Hj.
  apply Forall_cons in Hn as [Ha Hn]. apply Forall_cons in Hn as [Hb _]. done.
Qed.

Lemma unpack2_ok l a b : Upbit.unpack2 l = inr (a, b) ↔ l = [a; b].
Proof.
  destruct l as [|x [|y [|z l]]]; simpl; split; try done.
  - by intros [= -> ->].
  - by intros [= -> ->].
Qed.

Lemma unpack2_exn l : Upbit.unpack2 l = inl Upbit.ValueError ↔ length l ≠ 2%nat.
Proof. destruct l as [|x [|y [|z l]]]; simpl; split; done. Qed.

Lemma lower_char_idem c : lower_char (lower_char c) = lower_char c.
Proof. by destruct c as [[] [] [] [] [] [] [] []]. Qed.

Lemma lower_idem s : lower (lower s) = lower s.
Proof.
  induction s as [|c s IH]; [done|]. simpl. by rewrite lower_char_idem, IH.
Qed.

Lemma info_get_set kind name v kind' name' info :
  info_get kind' name' (info_set kind name v info) =
    if decide (kind = kind' ∧ name = name') then Some v else info_get kind' name' info.
Proof.
  unfold info_get, info_set.
  destruct (decide (kind = kind')) as [<-|Hk].
  - rewrite lookup_insert_eq. simpl.
    destruct (decide (name = name')) as [<-|Hn].
    + rewrite lookup_insert_eq. by rewrite decide_True.
    + rewrite lookup_insert_ne by done.
      rewrite decide_False by (by intros [_ ?]).
      by destruct (info !! kind).
  - rewrite lookup_insert_ne by done. rewrite decide_False; [done|]. by intros [? _].
Qed.

End catalog_strings.

Section dYdX_catalog.
Import Catalog.
Context {lib : SymbolLib}.

Lemma parse_market_at acc item k :
  catalog_at k (Catalog.dYdX.parse_market acc item) =
    if decide (Catalog.dYdX.online item ∧
               normalized (Catalog.dYdX.market_symbol item.2) = k)
    then (Some item.1, Some (Catalog.dYdX.m_tickSize item.2),
          Some (lower (Catalog.dYdX.m_type item.2)))
    else catalog_at k acc.
Proof.
  unfold Catalog.dYdX.parse_market, Catalog.dYdX.online, catalog_at.
  destruct (decide (Catalog.dYdX.m_status item.2 ≠ "ONLINE")) as [Hoff|Hon].
  - rewrite decide_False; [done|]. by intros [? _].
  - apply dec_stable in Hon. cbn [fst snd].
    fold (Catalog.dYdX.market_symbol item.2).
    set (name := normalized (Catalog.dYdX.market_symbol item.2)).
    rewrite !info_get_set.
    destruct (decide (name = k)) as [Hk|Hne].
    + rewrite Hk, lookup_insert_eq.
      repeat case_decide; destruct_and?; try done; exfalso; by auto.
    + rewrite lookup_insert_ne by done.
      repeat case_decide; destruct_and?; done.
Qed.

Lemma parse_offline acc l :
  Forall (λ item, ¬ Catalog.dYdX.online item) l →
  foldl Catalog.dYdX.parse_market acc l = acc.
Proof.
  revert acc. induction l as [|item l IH]; intros acc Hall; [done|].
  apply Forall_cons in Hall as [Hoff Hall]. simpl. rewrite IH by done.
  unfold Catalog.dYdX.parse_market. by rewrite decide_True.
Qed.

Lemma parse_origin l : ∀ acc k sym,
  (foldl Catalog.dYdX.parse_market acc l).1 !! k = Some sym →
  acc.1 !! k = Some sym ∨
  ∃ entry, (sym, entry) ∈ l ∧ Catalog.dYdX.m_status entry = "ONLINE" ∧
           k = normalized (Catalog.dYdX.market_symbol entry).
Proof.
  induction l as [|[sym0 entry0] l IH]; intros acc k sym Hlk; [by left|].
  simpl in Hlk. apply IH in Hlk as [Hlk|(entry & Hin & Hon & Hk)].
  - pose proof (parse_market_at acc (sym0, entry0) k) as Hat.
    apply (f_equal (λ v, v.1.1)) in Hat. unfold catalog_at in Hat at 1. simpl in Hat.
    rewrite Hat in Hlk. case_decide as Hhit; [|by left].
    destruct Hhit as [Hon <-]. simpl in Hlk. injection Hlk as <-. right.
    exists entry0. split_and!; [apply list_elem_of_here|done..].
  - right. exists entry. split_and!; [by apply list_elem_of_further|done..].
Qed.

Lemma parse_keeps l : ∀ acc k,
  is_Some (acc.1 !! k) → is_Some ((foldl Catalog.dYdX.parse_market acc l).1 !! k).
Proof.
  induction l as [|item l IH]; intros acc k Hk; [done|].
  simpl. apply IH.
  pose proof (parse_market_at acc item k) as Hat.
  apply (f_equal (λ v, v.1.1)) in Hat. unfold catalog_at in Hat at 1. simpl in Hat.
  rewrite Hat. by case_decide.
Qed.

Lemma parse_present l : ∀ acc sym entry,
  (sym, entry) ∈ l → Catalog.dYdX.m_status entry = "ONLINE" →
  is_Some ((foldl Catalog.dYdX.parse_market acc l).1
             !! normalized (Catalog.dYdX.market_symbol entry)).
Proof.
  induction l as [|item l IH]; intros acc sym entry Hin Hon;
    [by apply elem_of_nil in Hin|].
  apply elem_of_cons in Hin as [<-|Hin]; simpl; [|by eapply IH].
  apply parse_keeps.
  pose proof (parse_market_at acc (sym, entry)
                (normalized (Catalog.dYdX.market_symbol entry))) as Hat.
  apply (f_equal (λ v, v.1.1)) in Hat. unfold catalog_at in Hat at 1. simpl in Hat.
  rewrite Hat. by rewrite decide_True.
Qed.

Lemma parse_complete l k : ∀ acc,
  complete_at (catalog_at k acc) →
  complete_at (catalog_at k (foldl Catalog.dYdX.parse_market acc l)).
Proof.
  induction l as [|item l IH]; intros acc Hacc; [done|].
  simpl. apply IH. rewrite parse_market_at. case_decide; [|done].
  right. eexists _, _, _. split; [done|]. apply lower_idem.
Qed.

Lemma parse_last l1 sym entry l2 acc :
  Catalog.dYdX.m_status entry = "ONLINE" →
  Forall (λ item, Catalog.dYdX.online item →
            normalized (Catalog.dYdX.market_symbol item.2)
              ≠ normalized (Catalog.dYdX.market_symbol entry)) l2 →
  catalog_at (normalized (Catalog.dYdX.market_symbol entry))
    (foldl Catalog.dYdX.parse_market acc (l1 ++ (sym, entry) :: l2))
  = (Some sym, Some (Catalog.dYdX.m_tickSize entry), Some (lower (Catalog.dYdX.m_type entry))).
Proof.
  intros Hon Hl2. rewrite foldl_app. simpl.
  set (acc1 := Catalog.dYdX.parse_market _ _).
  assert (catalog_at (normalized (Catalog.dYdX.market_symbol entry)) acc1
          = (Some sym, Some (Catalog.dYdX.m_tickSize entry),
             Some (lower (Catalog.dYdX.m_type entry)))) as Hacc1.
  { unfold acc1. rewrite parse_market_at. by rewrite decide_True. }
  clearbody acc1. revert acc1 Hacc1.
  induction l2 as [|item l2 IH]; intros acc1 Hacc1; [done|].
  apply Forall_cons in Hl2 as [Hitem Hl2]. simpl. apply IH; [done|].
  rewrite parse_market_at. rewrite decide_False; [done|]. intros [Hio Heq]. by apply Hitem.
Qed.

End dYdX_catalog.

Section catalog_theorems.
Import Stdlib.Strings.Ascii Catalog.
Context {lib : SymbolLib}.

(** X11: the dYdX catalog holds the markets that are ONLINE and only
    those: every name in [ret] is the canonical name of an ONLINE market
    and maps to that market's exchange name, every ONLINE market has its
    canonical name in [ret], a name is either in all of [ret], tick sizes
    and instrument types or in none of them, every instrument type is in
    lower case, and a catalog without ONLINE markets gives two empty
    dictionaries. *)
Theorem dydx_catalog_online_only markets :
  let r := Catalog.dYdX._parse_symbol_data markets in
  (∀ k sym, r.1 !! k = Some sym →
     ∃ entry, (sym, entry) ∈ markets ∧ Catalog.dYdX.m_status entry = "ONLINE" ∧
              k = normalized (Catalog.dYdX.market_symbol entry)) ∧
  (∀ sym entry, (sym, entry) ∈ markets → Catalog.dYdX.m_status entry = "ONLINE" →
     is_Some (r.1 !! normalized (Catalog.dYdX.market_symbol entry))) ∧
  (∀ k, complete_at (catalog_at k r)) ∧
  (Forall (λ item, ¬ Catalog.dYdX.online item) markets → r = (∅, ∅)).
Proof.
  intros r. subst r. unfold Catalog.dYdX._parse_symbol_data. split_and!.
  - intros k sym Hlk. apply parse_origin in Hlk as [Hlk|?]; [|done].
    simpl in Hlk. by rewrite lookup_empty in Hlk.
  - intros sym entry Hin Hon. by eapply parse_present.
  - intros k. apply parse_complete. by left.
  - apply parse_offline.
Qed.

(** X12: for an ONLINE market that no later ONLINE market shares its
    canonical name with, the catalog maps that name to the market's
    exchange name, its tick size and its lower-cased type. *)
Theorem dydx_catalog_last_market_wins l1 sym entry l2 :
  Catalog.dYdX.m_status entry = "ONLINE" →
  Forall (λ item, Catalog.dYdX.online item →
            normalized (Catalog.dYdX.market_symbol item.2)
              ≠ normalized (Catalog.dYdX.market_symbol entry)) l2 →
  let r := Catalog.dYdX._parse_symbol_data (l1 ++ (sym, entry) :: l2) in
  let name := normalized (Catalog.dYdX.market_symbol entry) in
  r.1 !! name = Some sym ∧
  info_get "tick_size" name r.2 = Some (Catalog.dYdX.m_tickSize entry) ∧
  info_get "instrument_type" name r.2 = Some (lower (Catalog.dYdX.m_type entry)).
Proof.
  intros Hon Hl2 r name.
  pose proof (parse_last l1 sym entry l2 (∅, ∅) Hon Hl2) as Hlast.
  unfold catalog_at in Hlast. injection Hlast as H1 H2 H3.
  subst r name. unfold Catalog.dYdX._parse_symbol_data. by split_and!.
Qed.

Lemma upbit_parse_exn data : ∀ ret types,
  Catalog.Upbit.parse_markets data ret types = inl Catalog.Upbit.ValueError ↔
  Exists (λ m, count_char "-" m ≠ 1%nat) data.
Proof.
  induction data as [|m data IH]; intros ret types.
  - simpl. split; [done|]. by intros ?%Exists_nil.
  - simpl. rewrite Exists_cons.
    destruct (Catalog.Upbit.unpack2 (split "-" m)) as [[]|[quote base]] eqn:Hu.
    + apply unpack2_exn in Hu. rewrite length_split in Hu.
      split; [|done]. intros _. left. lia.
    + apply unpack2_ok in Hu.
      assert (count_char "-" m = 1%nat) as Hone.
      { pose proof (length_split "-" m) as Hlen. rewrite Hu in Hlen. simpl in Hlen. lia. }
      rewrite IH. split; [by right|]. by intros [?|?].
Qed.

Lemma upbit_parse_keeps data : ∀ ret types ret' types' k,
  Catalog.Upbit.parse_markets data ret types = inr (ret', types') →
  is_Some (ret !! k) → is_Some (ret' !! k).
Proof.
  induction data as [|m data IH]; intros ret types ret' types' k Hp Hk.
  - simpl in Hp. by injection Hp as <- <-.
  - simpl in Hp. destruct (Catalog.Upbit.unpack2 (split "-" m)) as [[]|[quote base]]; [done|].
    eapply IH; [exact Hp|]. rewrite lookup_insert. by case_decide.
Qed.

Lemma upbit_parse_ret data : ∀ ret types ret' types',
  Catalog.Upbit.parse_markets data ret types = inr (ret', types') →
  (∀ k m, ret' !! k = Some m →
     ret !! k = Some m ∨
     (m ∈ data ∧ ∃ quote base,
        m = quote +:+ "-" +:+ base ∧
        count_char "-" quote = 0%nat ∧ count_char "-" base = 0%nat ∧
        k = normalized (mkSymbol base quote SPOT))) ∧
  (∀ m, m ∈ data → ∃ quote base,
     m = quote +:+ "-" +:+ base ∧
     is_Some (ret' !! normalized (mkSymbol base quote SPOT))) ∧
  ((∀ k, types !! k = (λ _, SPOT) <$> ret !! k) →
   ∀ k, types' !! k = (λ _, SPOT) <$> ret' !! k).
Proof.
  induction data as [|m data IH]; intros ret types ret' types' Hp.
  - simpl in Hp. injection Hp as <- <-. split_and!; [by left| |done].
    intros m Hin. by apply elem_of_nil in Hin.
  - simpl in Hp.
    destruct (Catalog.Upbit.unpack2 (split "-" m)) as [[]|[quote base]] eqn:Hu; [done|].
    apply unpack2_ok, split_two in Hu as (Hm & Hq & Hb).
    destruct (IH _ _ _ _ Hp) as (Horigin & Hpresent & Htypes). split_and!.
    + intros k m' Hlk. apply Horigin in Hlk as [Hlk|(Hin & q & b & ?)].
      * destruct (decide (normalized (mkSymbol base quote SPOT) = k)) as [<-|Hne].
        -- rewrite lookup_insert_eq in Hlk. injection Hlk as <-. right.
           split; [apply list_elem_of_here|]. by exists quote, base.
        -- rewrite lookup_insert_ne in Hlk by done. by left.
      * right. split; [by apply list_elem_of_further|]. by exists q, b.
    + intros m' [->|Hin]%elem_of_cons; [|by apply Hpresent].
      exists quote, base. split; [done|].
      eapply upbit_parse_keeps; [exact Hp|]. by rewrite lookup_insert_eq.
    + intros Hinv. apply Htypes. intros k. rewrite !lookup_insert.
      case_decide; [done|apply Hinv].
Qed.

(** X13: the Upbit catalog parser raises [ValueError] exactly when some
    market code does not contain exactly one "-" (none, or more than
    one); when every code has exactly one, it returns the dictionaries. *)
Theorem upbit_catalog_needs_one_dash data :
  (Catalog.Upbit._parse_symbol_data data = inl Catalog.Upbit.ValueError ↔
   Exists (λ m, count_char "-" m ≠ 1%nat) data) ∧
  (Forall (λ m, count_char "-" m = 1%nat) data ↔
   ∃ ret info, Catalog.Upbit._parse_symbol_data data = inr (ret, info)).
Proof.
  assert (Catalog.Upbit._parse_symbol_data data = inl Catalog.Upbit.ValueError ↔
          Exists (λ m, count_char "-" m ≠ 1%nat) data) as Hexn.
  { rewrite <- (upbit_parse_exn data ∅ ∅). unfold Catalog.Upbit._parse_symbol_data.
    destruct (Catalog.Upbit.parse_markets data ∅ ∅) as [[]|[ret types]]; split; done. }
  split; [done|]. split.
  - intros Hall.
    destruct (Catalog.Upbit._parse_symbol_data data) as [[]|[ret info]] eqn:Hp;
      [|by eauto].
    pose proof (proj1 Hexn eq_refl) as Hex.
    apply Exists_exists in Hex as (m & Hin & Hne).
    by apply (proj1 (Forall_forall _ _) Hall) in Hin.
  - intros (ret & info & Hp). apply Forall_forall. intros m Hin.
    destruct (decide (count_char "-" m = 1%nat)) as [|Hne]; [done|].
    assert (Catalog.Upbit._parse_symbol_data data = inl Catalog.Upbit.ValueError) as Hbad.
    { apply Hexn, Exists_exists. by exists m. }
    congruence.
Qed.

(** X14: when the Upbit catalog parser returns, every market code of the
    input is [quote-base] with no further "-", and [ret] maps the
    canonical name of the symbol made from that base and that quote (in
    this order) to a code of the input that splits this way; the
    instrument types cover exactly the names of [ret], each with the
    default type. *)
Theorem upbit_catalog_round_trip data ret info :
  Catalog.Upbit._parse_symbol_data data = inr (ret, info) →
  (∀ k m, ret !! k = Some m →
     m ∈ data ∧ ∃ quote base,
       m = quote +:+ "-" +:+ base ∧
       count_char "-" quote = 0%nat ∧ count_char "-" base = 0%nat ∧
       k = normalized (mkSymbol base quote SPOT)) ∧
  (∀ m, m ∈ data → ∃ quote base,
     m = quote +:+ "-" +:+ base ∧
     is_Some (ret !! normalized (mkSymbol base quote SPOT))) ∧
  (∀ k, info_get "instrument_type" k info = (λ _, SPOT) <$> ret !! k).
Proof.
  unfold Catalog.Upbit._parse_symbol_data.
  destruct (Catalog.Upbit.parse_markets data ∅ ∅) as [[]|[ret' types]] eqn:Hp; [done|].
  intros [= <- <-].
  destruct (upbit_parse_ret data ∅ ∅ ret' types Hp) as (Horigin & Hpresent & Htypes).
  split_and!.
  - intros k m Hlk. apply Horigin in Hlk as [Hlk|?]; [|done].
    by rewrite lookup_empty in Hlk.
  - done.
  - intros k. unfold info_get. rewrite lookup_singleton_eq. simpl.
    apply Htypes. intros k'. by rewrite !lookup_empty.
Qed.

End catalog_theorems.

Lemma dydx_catalog_last_market_wins_witness :
  (Catalog.dYdX._parse_symbol_data (lib := Catalog.demo_lib) Catalog.demo_markets).1
    !! "ETH-USD-PERP" = Some "ETH-USD" ∧
  Catalog.info_get "tick_size" "ETH-USD-PERP"
    (Catalog.dYdX._parse_symbol_data (lib := Catalog.demo_lib) Catalog.demo_markets).2
    = Some "0.1" ∧
  Catalog.info_get "instrument_type" "ETH-USD-PERP"
    (Catalog.dYdX._parse_symbol_data (lib := Catalog.demo_lib) Catalog.demo_markets).2
    = Some "perpetual".
Proof.
  refine (dydx_catalog_last_market_wins (lib := Catalog.demo_lib)
            [("BTC-USD", Catalog.dYdX.mkMarket "ONLINE" "PERPETUAL" "BTC" "USD" "1");
             ("LUNA-USD", Catalog.dYdX.mkMarket "OFFLINE" "PERPETUAL" "LUNA" "USD" "0.0001")]
            "ETH-USD" (Catalog.dYdX.mkMarket "ONLINE" "PERPETUAL" "ETH" "USD" "0.1") [] _ _).
  - reflexivity.
  - constructor.
Defined.

Lemma upbit_catalog_round_trip_witness :
  ∃ quote base,
    "KRW-BTC" = quote +:+ "-" +:+ base ∧
    is_Some ((<["BTC-KRW" := "KRW-BTC"]> (∅ : gmap string string))
               !! Catalog.normalized (SymbolLib := Catalog.demo_lib)
                    (Catalog.mkSymbol base quote "spot")).
Proof.
  refine (proj1 (proj2 (upbit_catalog_round_trip (lib := Catalog.demo_lib) ["KRW-BTC"]
            (<["BTC-KRW" := "KRW-BTC"]> ∅)
            {["instrument_type" := <["BTC-KRW" := "spot"]> ∅]} _)) "KRW-BTC" _).
  - vm_compute. reflexivity.
  - apply list_elem_of_here.
Defined.
